(** * Login and registration validation ([auth_logic/validation/user_val.py])

    A shallow embedding of the two validators [LoginVal] and [RegisterVal]
    and of the collaborators they call (the user store [UserDB] and the
    passlib hashing context [bcrypt_ctx]), followed by the properties of
    the validation workflow.

    Conventions of the embedding.
    - A Python [str] is the list of its code points ([pystr]); [len] is
      [length] and the truth value of a string is non-emptiness.
    - A Python [dict] with string keys is a [gmap string _].
    - A method that calls a collaborator is a computation in the monad [M]:
      it threads the world (store contents, hashing entropy and the log of
      collaborator calls) and ends either in a value or in a raised
      exception.  [logging.info] calls have no effect on any of these and
      are left out. *)

From Stdlib Require Import NArith List Ascii String Bool Lia.
From stdpp Require Import base option list gmap strings.
Import ListNotations.

Set Default Proof Using "Type".

(** ** Python strings *)

(** A string is the sequence of its Unicode code points. *)
Definition pystr : Type := list N.

(** [str "..."] is the Python literal with the same ASCII text. *)
Definition str (s : string) : pystr :=
  List.map N_of_ascii (list_ascii_of_string s).

(** The code point of a one-character literal, as in [ord(c)]. *)
Definition ord (c : ascii) : N := N_of_ascii c.

(** Truth value of a string: [bool(s)] is [False] only for [""]. *)
Definition truthy_str (s : pystr) : bool :=
  match s with
  | [] => false
  | _ :: _ => true
  end.

(** [s1 == s2] on strings. *)
Definition str_eqb (s1 s2 : pystr) : bool := bool_decide (s1 = s2).

(** ** Regular expressions ([re]) *)

Module Re.

(** A bracket expression is a list of inclusive code-point ranges; a
    single character [c] is the range [(c, c)]. *)
Definition charset : Type := list (N * N).

Definition in_range (c : N) (r : N * N) : bool :=
  (fst r <=? c)%N && (c <=? snd r)%N.

Definition in_set (cs : charset) (c : N) : bool :=
  existsb (in_range c) cs.

(** [rng "a" "z"] is [a-z]; [chr "."] is the single character. *)
Definition rng (lo hi : ascii) : N * N := (ord lo, ord hi).
Definition chr (c : ascii) : N * N := (ord c, ord c).

Inductive regex : Type :=
| Void : regex
| Eps : regex
| Set_ : charset -> regex
| Cat : regex -> regex -> regex
| Alt : regex -> regex -> regex
| Star : regex -> regex.

(** [r+] and [r{2,}]. *)
Definition Plus (r : regex) : regex := Cat r (Star r).
Definition AtLeast2 (r : regex) : regex := Cat r (Cat r (Star r)).

(** The language of a pattern. *)
Inductive lang : regex -> pystr -> Prop :=
| L_eps : lang Eps []
| L_set cs c : in_set cs c = true -> lang (Set_ cs) [c]
| L_cat r1 r2 s1 s2 : lang r1 s1 -> lang r2 s2 -> lang (Cat r1 r2) (s1 ++ s2)
| L_alt_l r1 r2 s : lang r1 s -> lang (Alt r1 r2) s
| L_alt_r r1 r2 s : lang r2 s -> lang (Alt r1 r2) s
| L_star_nil r : lang (Star r) []
| L_star_cons r s1 s2 :
    lang r s1 -> lang (Star r) s2 -> lang (Star r) (s1 ++ s2).

(** Matching by derivatives. *)
Fixpoint nullable (r : regex) : bool :=
  match r with
  | Void => false
  | Eps => true
  | Set_ _ => false
  | Cat r1 r2 => nullable r1 && nullable r2
  | Alt r1 r2 => nullable r1 || nullable r2
  | Star _ => true
  end.

Fixpoint deriv (c : N) (r : regex) : regex :=
  match r with
  | Void => Void
  | Eps => Void
  | Set_ cs => if in_set cs c then Eps else Void
  | Cat r1 r2 =>
      if nullable r1
      then Alt (Cat (deriv c r1) r2) (deriv c r2)
      else Cat (deriv c r1) r2
  | Alt r1 r2 => Alt (deriv c r1) (deriv c r2)
  | Star r1 => Cat (deriv c r1) (Star r1)
  end.

(** [re.fullmatch(r, s)] followed by [bool(...)]: the whole of [s] must
    be matched.  The patterns used here have no back-references or
    look-around, so the backtracking search of [re] finds a match exactly
    when [s] is in the language of [r]. *)
Fixpoint fullmatch (r : regex) (s : pystr) : bool :=
  match s with
  | [] => nullable r
  | c :: s' => fullmatch (deriv c r) s'
  end.

Definition alnum : charset := [rng "A" "Z"; rng "a" "z"; rng "0" "9"].

(** The pattern compiled by both validators:
    [([A-Za-z0-9]+[.-_])*[A-Za-z0-9]+@[A-Za-z0-9-]+(\.[A-Z|a-z]{2,})+].
    Inside brackets [.-_] is the range from ['.'] to ['_'] and [|] is an
    ordinary character. *)
Definition email_regex : regex :=
  Cat (Star (Cat (Plus (Set_ alnum)) (Set_ [rng "." "_"])))
 (Cat (Plus (Set_ alnum))
 (Cat (Set_ [chr "@"])
 (Cat (Plus (Set_ [rng "A" "Z"; rng "a" "z"; rng "0" "9"; chr "-"]))
      (Plus (Cat (Set_ [chr "."])
                 (AtLeast2 (Set_ [rng "A" "Z"; chr "|"; rng "a" "z"]))))))).

(** The part of the pattern before the literal [@], and the part after. *)
Definition local_part : regex :=
  Cat (Star (Cat (Plus (Set_ alnum)) (Set_ [rng "." "_"])))
      (Plus (Set_ alnum)).

Definition domain_part : regex :=
  Cat (Plus (Set_ [rng "A" "Z"; rng "a" "z"; rng "0" "9"; chr "-"]))
      (Plus (Cat (Set_ [chr "."])
                 (AtLeast2 (Set_ [rng "A" "Z"; chr "|"; rng "a" "z"])))).

(** [excludes c r]: no bracket expression of [r] contains [c]. *)
Fixpoint excludes (c : N) (r : regex) : bool :=
  match r with
  | Void | Eps => true
  | Set_ cs => negb (in_set cs c)
  | Cat r1 r2 | Alt r1 r2 => excludes c r1 && excludes c r2
  | Star r1 => excludes c r1
  end.

End Re.

(** ** Values, exceptions and results *)

(** A document of the user store, and a query filter: dictionaries from
    field names to strings. *)
Abbreviation Doc := (gmap string pystr).

(** Truth value of what [fetch_user] returns: [None] and the empty
    dictionary are false. *)
Definition truthy_doc (u : option Doc) : bool :=
  match u with
  | None => false
  | Some d => negb (bool_decide (d = ∅))
  end.

(** Truth value of a list. *)
Definition truthy_list {A : Type} (l : list A) : bool :=
  match l with
  | [] => false
  | _ :: _ => true
  end.

(** The built-in [any] over an already evaluated list. *)
Definition any {A : Type} (truth : A -> bool) (l : list A) : bool :=
  existsb truth l.

(** Modelled from the spec: [AppException] is the typed application error
    of [auth_logic.exception]; it wraps the exception it was built from.
    [Exception] stands for any exception a collaborator raises and
    [KeyError] for a failed dictionary subscript. *)
Inductive exn : Type :=
| Exception (what : string)
| KeyError (key : string)
| AppException (cause : exn).

Inductive outcome (A : Type) : Type :=
| Return (a : A)
| Raise (e : exn).
Arguments Return {A} a.
Arguments Raise {A} e.

(** The dictionaries built by [validate_login], [validate_reg] and
    [save_user]: a ["status"] entry and, on some paths, a ["msg"] entry
    holding a string or a list of strings. *)
Inductive msg_value : Type :=
| MsgStr (s : pystr)
| MsgList (l : list pystr).

Record status_dict : Type := StatusDict {
  status : bool;
  msg : option msg_value
}.

(** What [auth_user] returns: [False] or the fetched document. *)
Inductive auth_value : Type :=
| PyFalse
| PyUser (user : Doc).

(** ** Collaborators *)

(** Modelled from the spec: [UserDB] of [auth_logic.data_access.user_data]
    is the store collaborator, [fetch(filter) -> Optional<UserRecord>] and
    [insert(record) -> void].  The validators use its constructor,
    [fetch_user] (a read) and [add_user]; each may raise. *)
Class UserDB (Store : Type) : Type := {
  UserDB_new : Store -> outcome unit;
  fetch_user : Doc -> Store -> outcome (option Doc);
  add_user : Doc -> Store -> outcome unit * Store
}.

(** The two methods of passlib's [CryptContext] that are called.  [hash]
    draws a fresh salt and so consumes entropy. *)
Class CryptContext (Rng : Type) : Type := {
  hash : pystr -> Rng -> outcome pystr * Rng;
  verify : pystr -> pystr -> outcome bool
}.

(** Collaborator calls, as they are logged in the world: which method was
    called on which arguments, and the exception it raised, if any. *)
Inductive call : Type :=
| CallNew
| CallFetch (filter : Doc)
| CallAdd (doc : Doc)
| CallHash (pwd : pystr)
| CallVerify (plain hashed : pystr).

Record event : Type := Ev {
  what : call;
  raised : option exn
}.

Definition raised_by {A : Type} (r : outcome A) : option exn :=
  match r with
  | Return _ => None
  | Raise e => Some e
  end.

Definition is_add (ev : event) : bool :=
  match what ev with
  | CallAdd _ => true
  | _ => false
  end.

(** ** The monad of effectful methods *)

Section Monad.
Context {Store Rng : Type}.

Record World : Type := MkWorld {
  db : Store;
  entropy : Rng;
  calls : list event
}.

Definition M (A : Type) : Type := World -> outcome A * World.

Definition ret {A : Type} (a : A) : M A := fun w => (Return a, w).

Definition raise {A : Type} (e : exn) : M A := fun w => (Raise e, w).

Definition bind {A B : Type} (m : M A) (k : A -> M B) : M B :=
  fun w =>
    match m w with
    | (Return a, w') => k a w'
    | (Raise e, w') => (Raise e, w')
    end.

(** [try: body / except Exception as e: handler e]. *)
Definition try_except {A : Type} (body : M A) (handler : exn -> M A) : M A :=
  fun w =>
    match body w with
    | (Return a, w') => (Return a, w')
    | (Raise e, w') => handler e w'
    end.

Definition log {A : Type} (c : call) (r : outcome A) (w : World) : World :=
  MkWorld (db w) (entropy w) (calls w ++ [Ev c (raised_by r)]).

Context `{!UserDB Store, !CryptContext Rng}.

(** [UserDB()] *)
Definition new_UserDB : M unit :=
  fun w =>
    let r := UserDB_new (db w) in
    (r, log CallNew r w).

(** [user_data.fetch_user(filter)] *)
Definition call_fetch_user (filter : Doc) : M (option Doc) :=
  fun w =>
    let r := fetch_user filter (db w) in
    (r, log (CallFetch filter) r w).

(** [user_data.add_user(doc)] *)
Definition call_add_user (doc : Doc) : M unit :=
  fun w =>
    let '(r, st) := add_user doc (db w) in
    (r, MkWorld st (entropy w) (calls w ++ [Ev (CallAdd doc) (raised_by r)])).

(** [bcrypt_ctx.hash(pwd)] *)
Definition call_hash (pwd : pystr) : M pystr :=
  fun w =>
    let '(r, g) := hash pwd (entropy w) in
    (r, MkWorld (db w) g (calls w ++ [Ev (CallHash pwd) (raised_by r)])).

(** [bcrypt_ctx.verify(plain, hashed)] *)
Definition call_verify (plain hashed : pystr) : M bool :=
  fun w =>
    let r := verify plain hashed in
    (r, log (CallVerify plain hashed) r w).

(** [d[key]] *)
Definition subscript (d : Doc) (key : string) : M pystr :=
  match d !! key with
  | Some v => ret v
  | None => raise (KeyError key)
  end.

End Monad.

Arguments World : clear implicits.
Arguments M : clear implicits.

Notation "x <~ m ;; k" := (bind m (fun x => k))
  (at level 100, m at next level, right associativity).

(** [errors.append(message)] under a condition. *)
Definition append_if (cond : bool) (message : string) (errors : list pystr)
  : list pystr :=
  if cond then errors ++ [str message] else errors.

(** ** [class LoginVal] *)

Module LoginVal.

(** The attributes set by [__init__]; [email_regex] is the same compiled
    pattern for every instance. *)
Record t : Type := Build {
  email : pystr;
  pwd : pystr
}.

Definition email_regex : Re.regex := Re.email_regex.

Definition is_email_valid (self : t) : bool :=
  Re.fullmatch email_regex (email self).

(** The body calls no collaborator and nothing in it raises on string
    attributes, so the enclosing [try ... except: raise e] is inert and
    the method is a function. *)
Definition validate (self : t) : list pystr :=
  let errors := [] in
  let errors := append_if (negb (truthy_str (email self)))
                          "Email is required" errors in
  let errors := append_if (negb (truthy_str (pwd self)))
                          "Password is required" errors in
  let errors := append_if (negb (is_email_valid self))
                          "Invalid Email" errors in
  errors.

Definition validate_login (self : t) : status_dict :=
  let errors := validate self in
  if truthy_list errors
  then StatusDict false (Some (MsgList errors))
  else StatusDict true None.

Section Methods.
Context {Store Rng : Type} `{!UserDB Store, !CryptContext Rng}.

Definition verify_pwd (plain_pwd hashed_pwd : pystr) : M Store Rng bool :=
  call_verify plain_pwd hashed_pwd.

Definition auth_user (self : t) : M Store Rng auth_value :=
  try_except
    (let login_status := validate_login self in
     if status login_status then
       _ <~ new_UserDB ;;
       user <~ call_fetch_user {[ "email" := email self ]} ;;
       match user with
       | None => ret PyFalse
       | Some d =>
           if negb (truthy_doc (Some d)) then ret PyFalse
           else
             hashed <~ subscript d "password" ;;
             ok <~ verify_pwd (pwd self) hashed ;;
             if negb ok then ret PyFalse
             else ret (PyUser d)
       end
     else ret PyFalse)
    (fun e => raise (AppException e)).

End Methods.

End LoginVal.

(** ** [class RegisterVal] *)

Module RegisterVal.

(** Modelled from the spec: the [User] entity of [auth_logic.entity.user]
    is the candidate record with its two plaintext passwords; these are
    the attributes the validator reads, all of them strings. *)
Record User : Type := BuildUser {
  name : pystr;
  username : pystr;
  email : pystr;
  phone : pystr;
  pass1 : pystr;
  pass2 : pystr;
  uid : pystr
}.

(** The attributes set by [__init__]; [user_data] and [bcrypt_ctx] are
    the collaborators of the context. *)
Record t : Type := Build {
  user : User;
  uuid : pystr
}.

Definition email_regex : Re.regex := Re.email_regex.

Definition is_email_valid (self : t) : bool :=
  Re.fullmatch email_regex (email (user self)).

Definition is_pwd_valid (self : t) : bool :=
  (8 <=? length (pass1 (user self)))%nat
  && (length (pass1 (user self)) <=? 16)%nat.

Definition is_pwd_match (self : t) : bool :=
  str_eqb (pass1 (user self)) (pass2 (user self)).

Section Methods.
Context {Store Rng : Type} `{!UserDB Store, !CryptContext Rng}.

Definition init (u : User) : M Store Rng t :=
  try_except
    (_ <~ new_UserDB ;;
     ret (Build u (uid u)))
    (fun e => raise e).

(** The three queries are the elements of a list display, so all of
    them are evaluated, in this order, before [any] looks at them. *)
Definition is_user_exists (self : t) : M Store Rng bool :=
  by_username <~ call_fetch_user {[ "username" := username (user self) ]} ;;
  by_email <~ call_fetch_user {[ "email" := email (user self) ]} ;;
  by_uuid <~ call_fetch_user {[ "UUID" := uuid self ]} ;;
  let user_exists := any truthy_doc [by_username; by_email; by_uuid] in
  ret (negb user_exists).

Definition validate (self : t) : M Store Rng (list pystr) :=
  try_except
    (let errors := [] in
     let errors := append_if (negb (truthy_str (name (user self))))
                             "Name is required" errors in
     let errors := append_if (negb (truthy_str (username (user self))))
                             "Username is required" errors in
     let errors := append_if (negb (truthy_str (email (user self))))
                             "Email is required" errors in
     let errors := append_if (negb (truthy_str (phone (user self))))
                             "Phone Number is required" errors in
     let errors := append_if (negb (truthy_str (pass1 (user self))))
                             "Password is required" errors in
     let errors := append_if (negb (truthy_str (pass2 (user self))))
                             "Confirm Password is required" errors in
     let errors := append_if (negb (is_email_valid self))
                             "Invalid Email" errors in
     let errors := append_if (negb (is_pwd_valid self))
                             "Password must be 8-16 characters long" errors in
     let errors := append_if (negb (is_pwd_match self))
                             "Passwords do not match" errors in
     free <~ is_user_exists self ;;
     let errors := append_if (negb free) "User already exists" errors in
     ret errors)
    (fun e => raise e).

Definition hash_pwd (pwd : pystr) : M Store Rng pystr :=
  call_hash pwd.

Definition validate_reg (self : t) : M Store Rng status_dict :=
  errors <~ validate self ;;
  if truthy_list errors
  then ret (StatusDict false (Some (MsgList errors)))
  else ret (StatusDict true None).

Definition save_user (self : t) : M Store Rng status_dict :=
  try_except
    (reg_status <~ validate_reg self ;;
     if status reg_status then
       hashed_pwd <~ hash_pwd (pass1 (user self)) ;;
       let user_data : Doc :=
         list_to_map
           [ ("Name", name (user self));
             ("username", username (user self));
             ("password", hashed_pwd);
             ("email", email (user self));
             ("ph_no", phone (user self));
             ("UUID", uuid self) ] in
       _ <~ call_add_user user_data ;;
       ret (StatusDict true (Some (MsgStr (str "User registered successfully"))))
     else
       errors <~ validate self ;;
       ret (StatusDict false (Some (MsgList errors))))
    (fun e => raise e).

End Methods.

End RegisterVal.

(** ** Reference collaborators *)

(** Laws of the collaborators that the validators take for granted. *)

(** Modelled from the spec: [UserDB] is not part of the validation module;
    the store is described as [fetch(filter) -> Optional<UserRecord>] and
    [insert(record) -> void] with unique username, email and identifier.
    The law relates the two for a one-field filter: when the query finds
    nothing and a document carrying that field value is then added, the
    same query returns that document. *)
Class UserDBLaws (Store : Type) `{!UserDB Store} : Prop := {
  fetch_after_add :
    forall (k : string) (v : pystr) (d : Doc) (st st' : Store) r,
      fetch_user {[ k := v ]} st = Return r ->
      truthy_doc r = false ->
      d !! k = Some v ->
      add_user d st = (Return tt, st') ->
      fetch_user {[ k := v ]} st' = Return (Some d)
}.

(** Modelled from the spec: the password hasher is a salted adaptive
    one-way hash with [verify(plaintext, digest) -> bool].  A digest
    verifies against the password it was computed from and against no
    other, and it is not the password itself. *)
Class CryptLaws (Rng : Type) `{!CryptContext Rng} : Prop := {
  verify_hash :
    forall (p h : pystr) (g g' : Rng),
      hash p g = (Return h, g') -> verify p h = Return true;
  verify_other :
    forall (p q h : pystr) (g g' : Rng),
      hash p g = (Return h, g') -> q <> p -> verify q h = Return false;
  hash_not_plain :
    forall (p h : pystr) (g g' : Rng),
      hash p g = (Return h, g') -> h <> p
}.

Module MemStore.

(** Modelled from the spec: an in-memory [UserDB].  The store is the
    list of its documents in insertion order, and a flag telling whether
    the server can be reached; [fetch] returns the first document that
    agrees with the filter on every field of the filter, [insert]
    appends, and every call raises when the server is unreachable. *)
Record t : Type := Build {
  online : bool;
  docs : list Doc
}.

Definition unreachable : exn := Exception "ServerSelectionTimeoutError".

Definition agrees (filter d : Doc) : bool :=
  forallb (fun kv => bool_decide (d !! fst kv = Some (snd kv)))
          (map_to_list filter).

Definition new (st : t) : outcome unit :=
  if online st then Return tt else Raise unreachable.

Definition fetch (filter : Doc) (st : t) : outcome (option Doc) :=
  if online st then Return (List.find (agrees filter) (docs st))
  else Raise unreachable.

Definition add (d : Doc) (st : t) : outcome unit * t :=
  if online st then (Return tt, Build true (docs st ++ [d]))
  else (Raise unreachable, st).

#[global] Instance userdb : UserDB t := {
  UserDB_new := new;
  fetch_user := fetch;
  add_user := add
}.

End MemStore.

Module ToyCrypt.

(** Modelled from the spec: a stand-in for the salted hasher, used to run
    the validators on concrete inputs.  The entropy is the list of salts
    still to be drawn; a digest is ["$2b$"], the salt, ["$"] and the
    password. *)
Definition prefix : pystr := str "$2b$".

Definition toy_hash (p : pystr) (g : list N) : outcome pystr * list N :=
  match g with
  | [] => (Raise (Exception "no entropy"), [])
  | salt :: g' => (Return (prefix ++ salt :: ord "$" :: p), g')
  end.

Definition toy_verify (p h : pystr) : outcome bool :=
  match h with
  | c1 :: c2 :: c3 :: c4 :: _ :: c5 :: q =>
      if bool_decide ([c1; c2; c3; c4] = prefix /\ c5 = ord "$")
      then Return (str_eqb q p)
      else Raise (Exception "UnknownHashError")
  | _ => Raise (Exception "UnknownHashError")
  end.

#[global] Instance ctx : CryptContext (list N) := {
  hash := toy_hash;
  verify := toy_verify
}.

End ToyCrypt.

(** ** The ordered list of registration checks *)

(** The checks of registration validation in the order the specification
    lists them, each with the message reported when it fails; [free] is the
    outcome of the uniqueness check. *)
Definition registration_checks (self : RegisterVal.t) (free : bool)
  : list (bool * string) :=
  let u := RegisterVal.user self in
  [ (truthy_str (RegisterVal.name u), "Name is required");
    (truthy_str (RegisterVal.username u), "Username is required");
    (truthy_str (RegisterVal.email u), "Email is required");
    (truthy_str (RegisterVal.phone u), "Phone Number is required");
    (truthy_str (RegisterVal.pass1 u), "Password is required");
    (truthy_str (RegisterVal.pass2 u), "Confirm Password is required");
    (RegisterVal.is_email_valid self, "Invalid Email");
    (RegisterVal.is_pwd_valid self, "Password must be 8-16 characters long");
    (RegisterVal.is_pwd_match self, "Passwords do not match");
    (free, "User already exists") ]%string.

(** The messages of the checks that fail, in the order of the checks. *)
Definition failure_messages (checks : list (bool * string)) : list pystr :=
  List.map (fun c => str (snd c)) (List.filter (fun c => negb (fst c)) checks).

(** The ten messages of registration validation, in the order of the
    checks. *)
Definition registration_messages : list pystr :=
  List.map str
    [ "Name is required"; "Username is required"; "Email is required";
      "Phone Number is required"; "Password is required";
      "Confirm Password is required"; "Invalid Email";
      "Password must be 8-16 characters long"; "Passwords do not match";
      "User already exists" ]%string.

(** The record handed to the store by a registration that passes, for a
    given password digest. *)
Definition persisted_record (self : RegisterVal.t) (hashed_pwd : pystr) : Doc :=
  list_to_map
    [ ("Name", RegisterVal.name (RegisterVal.user self));
      ("username", RegisterVal.username (RegisterVal.user self));
      ("password", hashed_pwd);
      ("email", RegisterVal.email (RegisterVal.user self));
      ("ph_no", RegisterVal.phone (RegisterVal.user self));
      ("UUID", RegisterVal.uuid self) ]%string.

(** The three uniqueness queries of one validation run. *)
Definition uniqueness_queries (self : RegisterVal.t) : list Doc :=
  [ {[ "username" := RegisterVal.username (RegisterVal.user self) ]};
    {[ "email" := RegisterVal.email (RegisterVal.user self) ]};
    {[ "UUID" := RegisterVal.uuid self ]} ].

(** ** Frame conditions *)

Section Frames.
Context {Store Rng : Type}.

(** The insertions logged so far. *)
Definition insertions (w : World Store Rng) : list event :=
  List.filter is_add (calls w).

(** [w'] has the store contents and entropy of [w] and no further
    insertion in its log. *)
Definition untouched (w w' : World Store Rng) : Prop :=
  db w' = db w /\ entropy w' = entropy w /\ insertions w' = insertions w.

(** A computation that leaves the world untouched and whose result is
    determined by the store contents alone. *)
Definition query_only {A : Type} (m : M Store Rng A) : Prop :=
  (forall w, untouched w (snd (m w)))
  /\ (forall w1 w2, db w1 = db w2 -> fst (m w1) = fst (m w2)).

(** The log entries of queries that returned normally. *)
Definition fetched (queries : list Doc) : list event :=
  List.map (fun q => Ev (CallFetch q) None) queries.

(** When [m] returns, none of the collaborator calls it made has raised:
    no exception is swallowed. *)
Definition returns_clean {A : Type} (m : M Store Rng A) : Prop :=
  forall w a w',
    m w = (Return a, w') ->
    exists made,
      calls w' = calls w ++ made
      /\ Forall (fun ev => raised ev = None) made.

(** No exception of the method's own. *)
Definition no_own : exn -> Prop := fun _ => False.

(** Every exception that [m] raises is one of [own], or it is the
    exception raised by the collaborator call logged last. *)
Definition raises_from {A : Type} (own : exn -> Prop) (m : M Store Rng A)
  : Prop :=
  forall w e w',
    m w = (Raise e, w') ->
    own e \/ exists c, last (calls w') = Some (Ev c (Some e)).

End Frames.

(** ** Sample inputs *)

Module Sample.

Definition alice : RegisterVal.User :=
  RegisterVal.BuildUser (str "A") (str "alice") (str "a@b.com") (str "123")
                        (str "password1") (str "password1") (str "u-1").

Definition alice_reg : RegisterVal.t := RegisterVal.Build alice (str "u-1").

Definition empty_world : World MemStore.t (list N) :=
  MkWorld (MemStore.Build true []) [7%N; 9%N] [].

Definition offline_world : World MemStore.t (list N) :=
  MkWorld (MemStore.Build false []) [7%N; 9%N] [].

(** The digest of alice's password under the salt [7], and her record. *)
Definition alice_digest : pystr :=
  ToyCrypt.prefix ++ 7%N :: ord "$" :: str "password1".

Definition alice_record : Doc := persisted_record alice_reg alice_digest.

Definition registered_world : World MemStore.t (list N) :=
  MkWorld (MemStore.Build true [alice_record]) [9%N] [].

Definition alice_login : LoginVal.t :=
  LoginVal.Build (str "a@b.com") (str "password1").

Definition wrong_login : LoginVal.t :=
  LoginVal.Build (str "a@b.com") (str "wrongpass").

(** alice under another email address. *)
Definition with_email (address : string) : RegisterVal.t :=
  RegisterVal.Build
    (RegisterVal.BuildUser (str "A") (str "alice") (str address) (str "123")
                           (str "password1") (str "password1") (str "u-1"))
    (str "u-1").

(** A candidate with a short password and a wrong confirmation. *)
Definition bob : RegisterVal.User :=
  RegisterVal.BuildUser (str "B") (str "bob") (str "bob@c.org") (str "456")
                        (str "short") (str "shirt") (str "u-2").

Definition bob_reg : RegisterVal.t := RegisterVal.Build bob (str "u-2").

(** What validation reports for bob on a store that does not know him,
    and the world after one validation run on the empty store. *)
Definition bob_errors : list pystr :=
  [ str "Password must be 8-16 characters long";
    str "Passwords do not match" ].

Definition bob_validated : World MemStore.t (list N) :=
  MkWorld (MemStore.Build true []) [7%N; 9%N]
          (fetched (uniqueness_queries bob_reg)).

Definition alice_registered : World MemStore.t (list N) :=
  MkWorld (MemStore.Build true [alice_record]) [9%N]
          (fetched (uniqueness_queries alice_reg)
             ++ [Ev (CallHash (str "password1")) None;
                 Ev (CallAdd alice_record) None]).

End Sample.

(** ** The grammar of accepted addresses *)

Module Address.
Import Re.

(** The bracket expressions of the pattern, by name. *)
Definition separator : charset := [rng "." "_"].
Definition label_set : charset := [rng "A" "Z"; rng "a" "z"; rng "0" "9"; chr "-"].
Definition tld_set : charset := [rng "A" "Z"; chr "|"; rng "a" "z"].

(** The parts of a string that the pattern matches: the repetitions of
    [[A-Za-z0-9]+[.-_]], the final [[A-Za-z0-9]+] before the [@], the
    [[A-Za-z0-9-]+] after it, and the repetitions of [\.[A-Z|a-z]{2,}]
    (without their leading dot). *)
Record t : Type := Build {
  runs : list (pystr * N);
  last_run : pystr;
  label : pystr;
  tlds : list pystr
}.

Definition all_in (cs : charset) (s : pystr) : bool := forallb (in_set cs) s.

(** A non-empty string over a bracket expression. *)
Definition word (cs : charset) (s : pystr) : bool :=
  truthy_str s && all_in cs s.

Definition run_ok (rs : pystr * N) : bool :=
  word alnum (fst rs) && in_set separator (snd rs).

Definition tld_ok (l : pystr) : bool :=
  (2 <=? length l)%nat && all_in tld_set l.

Definition render_run (rs : pystr * N) : pystr := fst rs ++ [snd rs].

Definition render_tld (l : pystr) : pystr := ord "." :: l.

Definition render (a : t) : pystr :=
  concat (List.map render_run (runs a))
  ++ last_run a
  ++ ord "@" :: label a
  ++ concat (List.map render_tld (tlds a)).

Definition well_formed (a : t) : bool :=
  forallb run_ok (runs a)
  && word alnum (last_run a)
  && word label_set (label a)
  && truthy_list (tlds a)
  && forallb tld_ok (tlds a).

(** [s] is the rendering of well-formed parts. *)
Definition parses (s : pystr) : Prop :=
  exists a, well_formed a = true /\ s = render a.

End Address.

(** ** A store that cannot be written *)

Module ReadOnlyStore.

(** A second reference store, for the paths on which the store fails
    late: its constructor always succeeds (the client connects lazily),
    it holds no document, a query raises when the filter names one of
    the broken fields that make up the state, and every insertion
    raises. *)
Definition t : Type := list string.

Definition query_failed : exn := Exception "OperationFailure".
Definition not_writable : exn := Exception "NotWritablePrimaryError".

Definition names_broken (filter : Doc) (st : t) : bool :=
  existsb (fun k => bool_decide (is_Some (filter !! k))) st.

Definition new (st : t) : outcome unit := Return tt.

Definition fetch (filter : Doc) (st : t) : outcome (option Doc) :=
  if names_broken filter st then Raise query_failed else Return None.

Definition add (d : Doc) (st : t) : outcome unit * t := (Raise not_writable, st).

#[global] Instance userdb : UserDB t := {
  UserDB_new := new;
  fetch_user := fetch;
  add_user := add
}.

End ReadOnlyStore.

(** ** Further sample inputs *)

Module MoreSamples.
Import Sample.

(** The parts of [a.b_c@d-e.co.uk]. *)
Definition dotted : Address.t :=
  Address.Build [(str "a", ord "."); (str "b", ord "_")] (str "c")
                (str "d-e") [str "co"; str "uk"].

(** A candidate with every field empty, and one whose confirmation
    alone is missing. *)
Definition blank_reg : RegisterVal.t :=
  RegisterVal.Build (RegisterVal.BuildUser [] [] [] [] [] [] []) [].

Definition carol_reg : RegisterVal.t :=
  RegisterVal.Build
    (RegisterVal.BuildUser (str "C") (str "carol") (str "carol@d.net") (str "789")
                           (str "password3") [] (str "u-3"))
    (str "u-3").

(** What validation reports for them on a store that knows neither. *)
Definition blank_errors : list pystr :=
  List.map str
    [ "Name is required"; "Username is required"; "Email is required";
      "Phone Number is required"; "Password is required";
      "Confirm Password is required"; "Invalid Email";
      "Password must be 8-16 characters long" ]%string.

Definition carol_errors : list pystr :=
  [ str "Confirm Password is required"; str "Passwords do not match" ].

(** A store holding a record without a password for alice's address. *)
Definition headless_world : World MemStore.t (list N) :=
  MkWorld (MemStore.Build true [ {[ "email" := str "a@b.com" ]} ]) [9%N] [].

(** The empty store without entropy left for the hasher. *)
Definition drained_world : World MemStore.t (list N) :=
  MkWorld (MemStore.Build true []) [] [].

(** Read-only stores: one that answers every query, one whose email
    index is broken. *)
Definition readonly_world : World ReadOnlyStore.t (list N) :=
  MkWorld [] [7%N; 9%N] [].

Definition broken_email_world : World ReadOnlyStore.t (list N) :=
  MkWorld ["email"%string] [7%N; 9%N] [].

End MoreSamples.

(** * Properties *)

(** ** The matcher decides the language of the pattern *)

Module ReFacts.
Import Re.

Lemma nullable_lang (r : regex) : nullable r = true <-> lang r [].
Proof.
  induction r as [| | cs | r1 IH1 r2 IH2 | r1 IH1 r2 IH2 | r IH]; simpl.
  - split; [discriminate | inversion 1].
  - split; [constructor | reflexivity].
  - split; [discriminate | inversion 1].
  - rewrite andb_true_iff, IH1, IH2. split.
    + intros [H1 H2]. change (@nil N) with (@nil N ++ []). now constructor.
    + inversion 1 as [| | ? ? s1 s2 H1 H2 [E1 E2] E3 | | | |]; subst.
      apply app_eq_nil in E3 as [-> ->]. now split.
  - rewrite orb_true_iff, IH1, IH2. split.
    + intros [H | H]; [now apply L_alt_l | now apply L_alt_r].
    + inversion 1; subst; [now left | now right].
  - split; [constructor | reflexivity].
Qed.

Lemma deriv_sound (c : N) (r : regex) :
  forall s, lang (deriv c r) s -> lang r (c :: s).
Proof.
  induction r as [| | cs | r1 IH1 r2 IH2 | r1 IH1 r2 IH2 | r IH];
    simpl; intros s H.
  - inversion H.
  - inversion H.
  - destruct (in_set cs c) eqn:E; inversion H; subst. now constructor.
  - assert (Hcat : forall t, lang (Cat (deriv c r1) r2) t -> lang (Cat r1 r2) (c :: t)).
    { intros t Ht. inversion Ht as [| | ? ? s1 s2 H1 H2 | | | |]; subst.
      change (c :: s1 ++ s2) with ((c :: s1) ++ s2).
      constructor; [now apply IH1 | assumption]. }
    destruct (nullable r1) eqn:E.
    + inversion H; subst.
      * now apply Hcat.
      * change (c :: s) with ([] ++ c :: s).
        constructor; [now apply nullable_lang | now apply IH2].
    + now apply Hcat.
  - inversion H; subst; [apply L_alt_l | apply L_alt_r]; auto.
  - inversion H as [| | ? ? s1 s2 H1 H2 | | | |]; subst.
    change (c :: s1 ++ s2) with ((c :: s1) ++ s2).
    constructor; [now apply IH | assumption].
Qed.

Lemma deriv_complete (c : N) (r : regex) (w : pystr) :
  lang r w -> forall s, w = c :: s -> lang (deriv c r) s.
Proof.
  induction 1 as [| cs c' Hc | r1 r2 s1 s2 H1 IH1 H2 IH2
                  | r1 r2 t H1 IH1 | r1 r2 t H2 IH2 | r
                  | r s1 s2 H1 IH1 H2 IH2]; intros s E; simpl.
  - discriminate.
  - injection E as -> <-. rewrite Hc. constructor.
  - destruct s1 as [| c1 s1']; simpl in E.
    + apply nullable_lang in H1. rewrite H1.
      apply L_alt_r. now apply IH2.
    + injection E as -> <-.
      assert (lang (Cat (deriv c r1) r2) (s1' ++ s2))
        by (constructor; [now apply IH1 | assumption]).
      destruct (nullable r1); [now apply L_alt_l | assumption].
  - apply L_alt_l. now apply IH1.
  - apply L_alt_r. now apply IH2.
  - discriminate.
  - destruct s1 as [| c1 s1']; simpl in E.
    + now apply IH2.
    + injection E as -> <-.
      constructor; [now apply IH1 | assumption].
Qed.

Lemma fullmatch_lang (r : regex) (s : pystr) :
  fullmatch r s = true <-> lang r s.
Proof.
  revert r. induction s as [| c s IH]; intros r; simpl.
  - apply nullable_lang.
  - rewrite IH. split.
    + apply deriv_sound.
    + intros H. now apply (deriv_complete c r (c :: s)).
Qed.

(** A character that no bracket expression of the pattern contains
    occurs in no matched string. *)
Lemma excludes_lang (c : N) (r : regex) (s : pystr) :
  lang r s -> excludes c r = true -> ~ In c s.
Proof.
  induction 1 as [| cs c' Hc | r1 r2 s1 s2 H1 IH1 H2 IH2
                  | r1 r2 t H1 IH1 | r1 r2 t H2 IH2 | r
                  | r s1 s2 H1 IH1 H2 IH2]; simpl; intros E.
  - tauto.
  - intros [-> | []]. rewrite Hc in E. discriminate.
  - apply andb_true_iff in E as [E1 E2]. rewrite in_app_iff. tauto.
  - apply andb_true_iff in E as [E1 E2]. tauto.
  - apply andb_true_iff in E as [E1 E2]. tauto.
  - tauto.
  - rewrite in_app_iff. simpl in IH2. tauto.
Qed.

(** The place of the last occurrence of a character is unique. *)
Lemma last_split_unique (x : N) (l1 l2 d1 d2 : pystr) :
  l1 ++ x :: d1 = l2 ++ x :: d2 -> ~ In x d1 -> ~ In x d2 -> l1 = l2.
Proof.
  revert l2. induction l1 as [| a l1 IH]; intros [| b l2]; simpl; intros E N1 N2.
  - reflexivity.
  - injection E as -> ->. exfalso. apply N1. rewrite in_app_iff. simpl. tauto.
  - injection E as -> <-. exfalso. apply N2. rewrite in_app_iff. simpl. tauto.
  - injection E as -> E. f_equal. now apply IH.
Qed.

Lemma email_regex_split (s : pystr) :
  lang email_regex s <->
  exists l d, s = l ++ ord "@" :: d /\ lang local_part l /\ lang domain_part d.
Proof.
  unfold email_regex, local_part, domain_part. split.
  - intros H.
    inversion H as [| | ? ? a s1 Ha H1 | | | |]; subst.
    inversion H1 as [| | ? ? b s2 Hb H2 | | | |]; subst.
    inversion H2 as [| | ? ? at_ s3 Hat H3 | | | |]; subst.
    inversion Hat as [| ? c Hc | | | | |]; subst.
    assert (c = ord "@") as ->.
    { unfold in_set, in_range in Hc. simpl in Hc.
      rewrite orb_false_r in Hc. apply andb_true_iff in Hc as [Hlo Hhi].
      apply N.leb_le in Hlo, Hhi. unfold ord. simpl. lia. }
    exists (a ++ b), s3. split; [| split].
    + now rewrite <- app_assoc.
    + now constructor.
    + assumption.
  - intros (l & d & -> & Hl & Hd).
    inversion Hl as [| | ? ? a b Ha Hb | | | |]; subst.
    rewrite <- app_assoc.
    constructor; [assumption |].
    constructor; [assumption |].
    change (ord "@" :: d) with ([ord "@"] ++ d).
    constructor; [now constructor | assumption].
Qed.

(** Every accepted address has an [@]. *)
Lemma fullmatch_email_has_at (s : pystr) :
  fullmatch email_regex s = true -> In (ord "@") s.
Proof.
  rewrite fullmatch_lang, email_regex_split.
  intros (l & d & -> & _). rewrite in_app_iff. simpl. tauto.
Qed.

(** No address with a hyphen before its last [@] is accepted. *)
Lemma fullmatch_email_hyphen (l d : pystr) :
  In (ord "-") l -> ~ In (ord "@") d ->
  fullmatch email_regex (l ++ ord "@" :: d) = false.
Proof.
  intros Hin Hd. apply not_true_is_false.
  rewrite fullmatch_lang, email_regex_split.
  intros (l' & d' & E & Hl & Hd').
  assert (~ In (ord "@") d') as Nd
    by (eapply excludes_lang; [exact Hd' | reflexivity]).
  apply last_split_unique in E; [subst l' | assumption..].
  revert Hin. eapply excludes_lang; [exact Hl | reflexivity].
Qed.

End ReFacts.

(** ** The monad and the frame conditions *)

Section MonadFacts.
Context {Store Rng : Type} `{!UserDB Store, !CryptContext Rng}.

(** [except Exception as e: raise e] changes nothing. *)
Lemma try_except_reraise {A : Type} (m : M Store Rng A) (w : World Store Rng) :
  try_except m (fun e => raise e) w = m w.
Proof.
  unfold try_except, raise. now destruct (m w) as [[a | e] w'].
Qed.

Lemma untouched_refl (w : World Store Rng) : untouched w w.
Proof. now repeat split. Qed.

Lemma untouched_trans (w1 w2 w3 : World Store Rng) :
  untouched w1 w2 -> untouched w2 w3 -> untouched w1 w3.
Proof.
  unfold untouched. intros (-> & -> & ->) (-> & -> & ->). now repeat split.
Qed.

Lemma query_only_ret {A : Type} (a : A) : query_only (Store := Store) (Rng := Rng) (ret a).
Proof. split; intros; [apply untouched_refl | reflexivity]. Qed.

Lemma query_only_bind {A B : Type} (m : M Store Rng A) (k : A -> M Store Rng B) :
  query_only m -> (forall a, query_only (k a)) -> query_only (bind m k).
Proof.
  intros [Hm1 Hm2] Hk. split.
  - intros w. unfold bind. specialize (Hm1 w).
    destruct (m w) as [[a | e] w']; simpl in *; [| assumption].
    eapply untouched_trans; [exact Hm1 | apply Hk].
  - intros w1 w2 E. unfold bind.
    pose proof (Hm2 w1 w2 E) as Hr.
    pose proof (Hm1 w1) as (D1 & _). pose proof (Hm1 w2) as (D2 & _).
    destruct (m w1) as [r1 w1'], (m w2) as [r2 w2']; simpl in *. subst r2.
    destruct r1 as [a | e]; [| reflexivity].
    apply Hk. congruence.
Qed.

Lemma query_only_reraise {A : Type} (m : M Store Rng A) :
  query_only m -> query_only (try_except m (fun e => raise e)).
Proof.
  intros [H1 H2]. split.
  - intros w. rewrite try_except_reraise. apply H1.
  - intros w1 w2 E. rewrite !try_except_reraise. now apply H2.
Qed.

Lemma query_only_fetch (q : Doc) : query_only (call_fetch_user (Rng := Rng) q).
Proof.
  split.
  - intros w. unfold call_fetch_user, log, untouched, insertions. simpl.
    repeat split. rewrite List.filter_app. simpl.
    now rewrite app_nil_r.
  - intros w1 w2 E. unfold call_fetch_user. simpl. now rewrite E.
Qed.

End MonadFacts.

(** ** Registration: validation *)

Section RegisterFacts.
Context {Store Rng : Type} `{!UserDB Store, !CryptContext Rng}.
Implicit Types (self : RegisterVal.t) (w : World Store Rng).

Lemma append_if_failure (b : bool) (message : string) (errors : list pystr) :
  append_if (negb b) message errors
  = errors ++ failure_messages [(b, message)].
Proof. destruct b; simpl; [now rewrite app_nil_r | reflexivity]. Qed.

Lemma failure_messages_cons (c : bool * string) (cs : list (bool * string)) :
  failure_messages (c :: cs) = failure_messages [c] ++ failure_messages cs.
Proof. unfold failure_messages. simpl. now destruct (negb (fst c)). Qed.

(** The outcome of the three uniqueness queries. *)
Lemma is_user_exists_returns self w a b c :
  fetch_user {[ "username" := RegisterVal.username (RegisterVal.user self) ]} (db w)
    = Return a ->
  fetch_user {[ "email" := RegisterVal.email (RegisterVal.user self) ]} (db w)
    = Return b ->
  fetch_user {[ "UUID" := RegisterVal.uuid self ]} (db w) = Return c ->
  RegisterVal.is_user_exists self w
  = (Return (negb (truthy_doc a || truthy_doc b || truthy_doc c)),
     MkWorld (db w) (entropy w) (calls w ++ fetched (uniqueness_queries self))).
Proof.
  intros Ha Hb Hc.
  unfold RegisterVal.is_user_exists, bind, call_fetch_user, log, ret, any.
  simpl. rewrite Ha. simpl. rewrite Hb. simpl. rewrite Hc. simpl.
  rewrite orb_false_r, orb_assoc, <- !app_assoc. reflexivity.
Qed.

Lemma is_user_exists_inv self w free w' :
  RegisterVal.is_user_exists self w = (Return free, w') ->
  exists a b c,
    fetch_user {[ "username" := RegisterVal.username (RegisterVal.user self) ]} (db w)
      = Return a
    /\ fetch_user {[ "email" := RegisterVal.email (RegisterVal.user self) ]} (db w)
      = Return b
    /\ fetch_user {[ "UUID" := RegisterVal.uuid self ]} (db w) = Return c
    /\ free = negb (truthy_doc a || truthy_doc b || truthy_doc c)
    /\ w' = MkWorld (db w) (entropy w) (calls w ++ fetched (uniqueness_queries self)).
Proof.
  intros H.
  destruct (fetch_user {[ "username" := RegisterVal.username (RegisterVal.user self) ]} (db w))
    as [a | e] eqn:Ha;
    [| unfold RegisterVal.is_user_exists, bind, call_fetch_user in H;
       simpl in H; rewrite Ha in H; discriminate].
  destruct (fetch_user {[ "email" := RegisterVal.email (RegisterVal.user self) ]} (db w))
    as [b | e] eqn:Hb;
    [| unfold RegisterVal.is_user_exists, bind, call_fetch_user in H;
       simpl in H; rewrite Ha in H; simpl in H; rewrite Hb in H; discriminate].
  destruct (fetch_user {[ "UUID" := RegisterVal.uuid self ]} (db w))
    as [c | e] eqn:Hc;
    [| unfold RegisterVal.is_user_exists, bind, call_fetch_user in H;
       simpl in H; rewrite Ha in H; simpl in H; rewrite Hb in H;
       simpl in H; rewrite Hc in H; discriminate].
  rewrite (is_user_exists_returns self w a b c Ha Hb Hc) in H.
  injection H as <- <-. now exists a, b, c.
Qed.

Lemma query_only_is_user_exists self :
  query_only (RegisterVal.is_user_exists (Rng := Rng) self).
Proof.
  unfold RegisterVal.is_user_exists.
  repeat (apply query_only_bind; [apply query_only_fetch | intros ?]).
  apply query_only_ret.
Qed.

(** One validation run, in terms of the uniqueness check. *)
Lemma validate_unfold self w :
  RegisterVal.validate self w
  = match RegisterVal.is_user_exists self w with
    | (Return free, w') =>
        (Return (failure_messages (registration_checks self free)), w')
    | (Raise e, w') => (Raise e, w')
    end.
Proof.
  unfold RegisterVal.validate. rewrite try_except_reraise.
  unfold bind. destruct (RegisterVal.is_user_exists self w) as [[free | e] w'];
    [| reflexivity].
  unfold ret. f_equal. f_equal.
  rewrite !append_if_failure. unfold registration_checks.
  repeat (rewrite (failure_messages_cons _ (_ :: _))).
  simpl app at 1. rewrite <- !app_assoc. reflexivity.
Qed.

Lemma query_only_validate self :
  query_only (RegisterVal.validate (Rng := Rng) self).
Proof.
  unfold RegisterVal.validate. apply query_only_reraise.
  apply query_only_bind; [apply query_only_is_user_exists | intros ?].
  apply query_only_ret.
Qed.

(** A second run on a world reached by a first run gives the same
    messages. *)
Lemma validate_again self w errors w1 :
  RegisterVal.validate self w = (Return errors, w1) ->
  RegisterVal.validate self w1
  = (Return errors,
     MkWorld (db w) (entropy w)
             (calls w ++ fetched (uniqueness_queries self)
                      ++ fetched (uniqueness_queries self)))
  /\ w1 = MkWorld (db w) (entropy w) (calls w ++ fetched (uniqueness_queries self)).
Proof.
  rewrite validate_unfold.
  destruct (RegisterVal.is_user_exists self w) as [[free | e] w'] eqn:E;
    [| discriminate].
  intros H. injection H as <- <-.
  apply is_user_exists_inv in E as (a & b & c & Ha & Hb & Hc & -> & ->).
  split; [| reflexivity].
  rewrite validate_unfold.
  rewrite (is_user_exists_returns self _ a b c); simpl; try assumption.
  now rewrite <- app_assoc.
Qed.

(** What [save_user] does when validation reports a failure. *)
Lemma save_user_rejected self w errors w1 :
  RegisterVal.validate self w = (Return errors, w1) ->
  errors <> [] ->
  RegisterVal.save_user self w
  = (Return (StatusDict false (Some (MsgList errors))),
     MkWorld (db w) (entropy w)
             (calls w ++ fetched (uniqueness_queries self)
                      ++ fetched (uniqueness_queries self))).
Proof.
  intros H Hne.
  destruct (validate_again self w errors w1 H) as [H2 ->].
  unfold RegisterVal.save_user. rewrite try_except_reraise.
  unfold bind at 1. unfold RegisterVal.validate_reg. unfold bind at 1.
  rewrite H. destruct errors as [| m errors]; [contradiction |].
  cbn [truthy_list]. unfold ret at 1. cbn [status]. unfold bind.
  rewrite H2. reflexivity.
Qed.

Lemma insertions_fetched w (qs : list Doc) (l : list event) :
  List.filter is_add (l ++ fetched qs) = List.filter is_add l.
Proof.
  rewrite List.filter_app.
  replace (List.filter is_add (fetched qs)) with (@nil event).
  - now rewrite app_nil_r.
  - induction qs as [| q qs IH]; [reflexivity | exact IH].
Qed.

End RegisterFacts.

(** ** Registration: the outcome of a rejected candidate *)

Section RegisterClaims.
Context {Store Rng : Type} `{!UserDB Store, !CryptContext Rng}.
Implicit Types (self : RegisterVal.t) (w : World Store Rng).

Lemma failure_messages_in (checks : list (bool * string)) (m : string) :
  In (false, m) checks -> In (str m) (failure_messages checks).
Proof.
  intros H. unfold failure_messages.
  apply (in_map (fun c => str (snd c)) _ (false, m)).
  apply filter_In. now split.
Qed.

Lemma failure_messages_nil (checks : list (bool * string)) (b : bool) (m : string) :
  failure_messages checks = [] -> In (b, m) checks -> b = true.
Proof.
  intros E H. destruct b; [reflexivity |].
  apply failure_messages_in in H. rewrite E in H. destruct H.
Qed.

Lemma failure_messages_sublist (checks : list (bool * string)) :
  sublist (failure_messages checks) (List.map (fun c => str (snd c)) checks).
Proof.
  unfold failure_messages.
  induction checks as [| [b m] checks IH]; simpl.
  - constructor.
  - destruct b; simpl; [now apply sublist_cons | now apply sublist_skip].
Qed.

Lemma untouched_fetched w (qs1 qs2 : list Doc) :
  untouched w (MkWorld (db w) (entropy w) (calls w ++ fetched qs1 ++ fetched qs2)).
Proof.
  unfold untouched, insertions. simpl. repeat split.
  now rewrite app_assoc, !(insertions_fetched w).
Qed.

(** A candidate with a failing check, on a store whose queries return:
    both runs report the failure and nothing is inserted. *)
Lemma save_user_reports self w a b c (m : string) :
  fetch_user {[ "username" := RegisterVal.username (RegisterVal.user self) ]} (db w)
    = Return a ->
  fetch_user {[ "email" := RegisterVal.email (RegisterVal.user self) ]} (db w)
    = Return b ->
  fetch_user {[ "UUID" := RegisterVal.uuid self ]} (db w) = Return c ->
  In (false, m)
     (registration_checks self (negb (truthy_doc a || truthy_doc b || truthy_doc c))) ->
  exists errors w2,
    RegisterVal.save_user self w
    = (Return (StatusDict false (Some (MsgList errors))), w2)
    /\ In (str m) errors
    /\ untouched w w2.
Proof.
  intros Ha Hb Hc Hin.
  pose proof (validate_unfold self w) as Hv.
  rewrite (is_user_exists_returns self w a b c Ha Hb Hc) in Hv.
  pose proof (failure_messages_in _ _ Hin) as Hm.
  eexists _, _. split; [| split].
  - eapply save_user_rejected; [exact Hv |].
    intros E. rewrite E in Hm. destruct Hm.
  - exact Hm.
  - apply untouched_fetched.
Qed.

(** C7. Registration validation runs all its checks and collects every
    failure message: whenever the three uniqueness queries return,
    [validate] issues all three of them, in the order username, email,
    identifier, and returns the messages of exactly the checks that
    fail, in the order required fields (name, username, email, phone,
    pass1, pass2), email format, password length, confirmation match,
    uniqueness; so the result is a subsequence of the ten messages in
    that order. *)
Theorem validate_collects_in_order self w a b c :
  fetch_user {[ "username" := RegisterVal.username (RegisterVal.user self) ]} (db w)
    = Return a ->
  fetch_user {[ "email" := RegisterVal.email (RegisterVal.user self) ]} (db w)
    = Return b ->
  fetch_user {[ "UUID" := RegisterVal.uuid self ]} (db w) = Return c ->
  let free := negb (truthy_doc a || truthy_doc b || truthy_doc c) in
  let errors := failure_messages (registration_checks self free) in
  RegisterVal.validate self w
  = (Return errors,
     MkWorld (db w) (entropy w) (calls w ++ fetched (uniqueness_queries self)))
  /\ sublist errors registration_messages
  /\ (forall check m, In (check, m) (registration_checks self free) ->
      check = false -> In (str m) errors).
Proof.
  intros Ha Hb Hc free errors. split; [| split].
  - rewrite validate_unfold.
    now rewrite (is_user_exists_returns self w a b c Ha Hb Hc).
  - apply (failure_messages_sublist (registration_checks self free)).
  - intros check m Hin ->. now apply failure_messages_in.
Qed.

(** C10. When validation fails, [save_user] runs the whole validation
    twice: the three uniqueness queries are issued, in order, once for
    [validate_reg] and once more for the returned message list, which is
    the result of the second run; the store being the same for both
    runs, the second run returns the messages of the first. *)
Theorem save_user_validates_twice self w errors w1 :
  RegisterVal.validate self w = (Return errors, w1) ->
  errors <> [] ->
  exists errors2 w2,
    RegisterVal.validate self w1 = (Return errors2, w2)
    /\ RegisterVal.save_user self w
       = (Return (StatusDict false (Some (MsgList errors2))), w2)
    /\ calls w1 = calls w ++ fetched (uniqueness_queries self)
    /\ calls w2 = calls w1 ++ fetched (uniqueness_queries self)
    /\ (forall w', db w' = db w ->
        fst (RegisterVal.validate self w') = Return errors)
    /\ errors2 = errors.
Proof.
  intros H Hne.
  destruct (validate_again self w errors w1 H) as [H2 E].
  exists errors. eexists. split; [exact H2 |]. split; [| split; [| split; [| split]]].
  - now apply (save_user_rejected self w errors w1).
  - now rewrite E.
  - rewrite E. simpl. now rewrite <- app_assoc.
  - intros w' Hdb.
    destruct (query_only_validate (Rng := Rng) self) as [_ Hdet].
    rewrite (Hdet w' w Hdb), H. reflexivity.
  - reflexivity.
Qed.

(** C3. When a validation check fails, [save_user] returns status false
    with the collected messages, never calls the store's insert and
    leaves the store contents unchanged; in particular, when [pass1]
    differs from [pass2] nothing is ever inserted, and as soon as the
    uniqueness queries return the result has status false and carries
    ["Passwords do not match"]. *)
Theorem save_user_failure_no_insert self w :
  (forall errors w1,
      RegisterVal.validate self w = (Return errors, w1) ->
      errors <> [] ->
      exists w2,
        RegisterVal.save_user self w
        = (Return (StatusDict false (Some (MsgList errors))), w2)
        /\ untouched w w2)
  /\ (RegisterVal.pass1 (RegisterVal.user self)
      <> RegisterVal.pass2 (RegisterVal.user self) ->
      untouched w (snd (RegisterVal.save_user self w))
      /\ forall a b c,
          fetch_user {[ "username" := RegisterVal.username (RegisterVal.user self) ]} (db w)
            = Return a ->
          fetch_user {[ "email" := RegisterVal.email (RegisterVal.user self) ]} (db w)
            = Return b ->
          fetch_user {[ "UUID" := RegisterVal.uuid self ]} (db w) = Return c ->
          exists errors w2,
            RegisterVal.save_user self w
            = (Return (StatusDict false (Some (MsgList errors))), w2)
            /\ In (str "Passwords do not match") errors).
Proof.
  split.
  - intros errors w1 H Hne. eexists. split.
    + now apply (save_user_rejected self w errors w1).
    + apply untouched_fetched.
  - intros Hneq.
    assert (Hin : forall free,
               In (false, "Passwords do not match"%string)
                  (registration_checks self free)).
    { intros free. unfold registration_checks, RegisterVal.is_pwd_match, str_eqb.
      rewrite bool_decide_eq_false_2 by assumption. simpl. tauto. }
    split.
    + destruct (RegisterVal.validate self w) as [[errors | e] w1] eqn:Hv.
      * assert (errors <> []) as Hne.
        { rewrite validate_unfold in Hv.
          destruct (RegisterVal.is_user_exists self w) as [[free | e] w'];
            [| discriminate].
          injection Hv as <- _. intros E.
          pose proof (failure_messages_in _ _ (Hin free)) as Hm.
          rewrite E in Hm. destruct Hm. }
        rewrite (save_user_rejected self w errors w1 Hv Hne).
        apply untouched_fetched.
      * destruct (query_only_validate (Rng := Rng) self) as [Hfr _].
        specialize (Hfr w). rewrite Hv in Hfr. simpl in Hfr.
        unfold RegisterVal.save_user. rewrite try_except_reraise.
        unfold bind at 1. unfold RegisterVal.validate_reg. unfold bind at 1.
        rewrite Hv. exact Hfr.
    + intros a b c Ha Hb Hc.
      destruct (save_user_reports self w a b c _ Ha Hb Hc (Hin _))
        as (errors & w2 & Hs & Hm & _).
      now exists errors, w2.
Qed.

(** C4. When the candidate's username, email or identifier is already
    in the store, that is, when one of the three queries returns a
    document, [save_user] fails with a message list containing
    ["User already exists"] and inserts nothing. *)
Theorem save_user_duplicate self w a b c :
  fetch_user {[ "username" := RegisterVal.username (RegisterVal.user self) ]} (db w)
    = Return a ->
  fetch_user {[ "email" := RegisterVal.email (RegisterVal.user self) ]} (db w)
    = Return b ->
  fetch_user {[ "UUID" := RegisterVal.uuid self ]} (db w) = Return c ->
  truthy_doc a = true \/ truthy_doc b = true \/ truthy_doc c = true ->
  exists errors w2,
    RegisterVal.save_user self w
    = (Return (StatusDict false (Some (MsgList errors))), w2)
    /\ In (str "User already exists") errors
    /\ untouched w w2.
Proof.
  intros Ha Hb Hc Hhit.
  apply (save_user_reports self w a b c _ Ha Hb Hc).
  assert (truthy_doc a || truthy_doc b || truthy_doc c = true) as ->.
  { rewrite !orb_true_iff. tauto. }
  unfold registration_checks. simpl. tauto.
Qed.

(** C8. The password-length check passes exactly when [pass1] has
    between 8 and 16 characters inclusive, and a registration whose
    [pass1] is shorter than 8 or longer than 16 is rejected with the
    length message by [validate] and by [save_user]. *)
Theorem password_length_check self :
  (RegisterVal.is_pwd_valid self = true
   <-> (8 <= length (RegisterVal.pass1 (RegisterVal.user self)) <= 16)%nat)
  /\ ((length (RegisterVal.pass1 (RegisterVal.user self)) < 8
       \/ 16 < length (RegisterVal.pass1 (RegisterVal.user self)))%nat ->
      forall w,
        (forall errors w1,
            RegisterVal.validate self w = (Return errors, w1) ->
            In (str "Password must be 8-16 characters long") errors)
        /\ (forall a b c,
               fetch_user {[ "username" := RegisterVal.username (RegisterVal.user self) ]} (db w)
                 = Return a ->
               fetch_user {[ "email" := RegisterVal.email (RegisterVal.user self) ]} (db w)
                 = Return b ->
               fetch_user {[ "UUID" := RegisterVal.uuid self ]} (db w) = Return c ->
               exists errors w2,
                 RegisterVal.save_user self w
                 = (Return (StatusDict false (Some (MsgList errors))), w2)
                 /\ In (str "Password must be 8-16 characters long") errors)).
Proof.
  assert (Hiff : RegisterVal.is_pwd_valid self = true
                 <-> (8 <= length (RegisterVal.pass1 (RegisterVal.user self)) <= 16)%nat).
  { unfold RegisterVal.is_pwd_valid.
    rewrite andb_true_iff, !Nat.leb_le. reflexivity. }
  split; [exact Hiff |].
  intros Hlen w.
  assert (Hin : forall free,
             In (false, "Password must be 8-16 characters long"%string)
                (registration_checks self free)).
  { intros free. unfold registration_checks.
    replace (RegisterVal.is_pwd_valid self) with false.
    - simpl. tauto.
    - symmetry. apply not_true_is_false. rewrite Hiff. lia. }
  split.
  - intros errors w1. rewrite validate_unfold.
    destruct (RegisterVal.is_user_exists self w) as [[free | e] w'];
      [| discriminate].
    intros H. injection H as <- _. apply failure_messages_in, Hin.
  - intros a b c Ha Hb Hc.
    destruct (save_user_reports self w a b c _ Ha Hb Hc (Hin _))
      as (errors & w2 & Hs & Hm & _).
    now exists errors, w2.
Qed.

End RegisterClaims.

(** ** Login *)

Section LoginFacts.
Context {Store Rng : Type} `{!UserDB Store, !CryptContext Rng}.
Implicit Types (self : LoginVal.t) (w : World Store Rng).

Lemma email_regex_rejects_empty : Re.fullmatch Re.email_regex [] = false.
Proof. reflexivity. Qed.

Lemma login_validate_nil self :
  LoginVal.validate self = []
  <-> LoginVal.email self <> [] /\ LoginVal.pwd self <> []
      /\ LoginVal.is_email_valid self = true.
Proof.
  unfold LoginVal.validate, append_if.
  destruct (LoginVal.is_email_valid self), (LoginVal.email self),
    (LoginVal.pwd self); simpl; split;
    try discriminate; try (intros (? & ? & ?); congruence);
    intros _; repeat split; discriminate.
Qed.

Lemma auth_user_invalid self w :
  LoginVal.validate self <> [] ->
  LoginVal.auth_user self w = (Return PyFalse, w).
Proof.
  intros Hne. unfold LoginVal.auth_user, try_except, LoginVal.validate_login.
  destruct (LoginVal.validate self); [contradiction | reflexivity].
Qed.

(** The path of [auth_user] through a store lookup that returns. *)
Lemma auth_user_lookup self w r :
  LoginVal.validate self = [] ->
  UserDB_new (db w) = Return tt ->
  fetch_user {[ "email" := LoginVal.email self ]} (db w) = Return r ->
  let looked_up :=
    MkWorld (db w) (entropy w)
            (calls w ++ [Ev CallNew None;
                         Ev (CallFetch {[ "email" := LoginVal.email self ]}) None]) in
  LoginVal.auth_user self w
  = if truthy_doc r then
      match r with
      | None => (Return PyFalse, looked_up)
      | Some d =>
          match d !! "password" with
          | None => (Raise (AppException (KeyError "password")), looked_up)
          | Some hashed =>
              let verified :=
                log (CallVerify (LoginVal.pwd self) hashed)
                    (verify (LoginVal.pwd self) hashed) looked_up in
              match verify (LoginVal.pwd self) hashed with
              | Return ok => (Return (if ok then PyUser d else PyFalse), verified)
              | Raise e => (Raise (AppException e), verified)
              end
          end
      end
    else (Return PyFalse, looked_up).
Proof.
  intros Hv Hnew Hfetch looked_up.
  unfold LoginVal.auth_user, try_except, LoginVal.validate_login.
  rewrite Hv. cbn [truthy_list status].
  unfold bind, new_UserDB, call_fetch_user. cbn [db log].
  rewrite Hnew. cbn [db log raised_by]. rewrite Hfetch. cbn [raised_by].
  match goal with
  | |- context [log ?c ?x (log ?c' ?y w)] =>
      replace (log c x (log c' y w)) with looked_up
        by (unfold looked_up, log; cbn; now rewrite <- app_assoc)
  end.
  destruct r as [d |]; [| reflexivity].
  destruct (truthy_doc (Some d)); [| reflexivity].
  cbn [negb]. unfold subscript.
  destruct (d !! "password") as [hashed |]; [| reflexivity].
  unfold ret, LoginVal.verify_pwd, call_verify.
  destruct (verify (LoginVal.pwd self) hashed) as [[|] | e]; reflexivity.
Qed.

(** C9. With an empty email, [LoginVal.validate] reports both
    ["Email is required"] and ["Invalid Email"]: the format check runs
    on the empty string too, and the pattern does not match it. *)
Theorem login_validate_empty_email self :
  LoginVal.email self = [] ->
  In (str "Email is required") (LoginVal.validate self)
  /\ In (str "Invalid Email") (LoginVal.validate self)
  /\ LoginVal.validate self
     = str "Email is required"
       :: (if truthy_str (LoginVal.pwd self) then []
           else [str "Password is required"])
       ++ [str "Invalid Email"].
Proof.
  intros E.
  assert (LoginVal.validate self
          = str "Email is required"
            :: (if truthy_str (LoginVal.pwd self) then []
                else [str "Password is required"])
            ++ [str "Invalid Email"]) as ->.
  { unfold LoginVal.validate, LoginVal.is_email_valid, LoginVal.email_regex.
    rewrite E, email_regex_rejects_empty.
    now destruct (truthy_str (LoginVal.pwd self)). }
  split; [| split]; [now left | | reflexivity].
  right. apply in_or_app. right. now left.
Qed.

(** C6. [auth_user] returns [False] when the email or the password is
    empty or the email does not match the pattern (without consulting
    the store); otherwise, the store being reachable, it returns [False]
    when the lookup by email finds no record and when the stored hash
    does not verify against the password, and it returns the record
    found when the hash verifies.  The store contents are the same
    afterwards. *)
Theorem auth_user_cases self w :
  (LoginVal.email self = [] \/ LoginVal.pwd self = []
   \/ LoginVal.is_email_valid self = false ->
   LoginVal.auth_user self w = (Return PyFalse, w))
  /\ (LoginVal.email self <> [] -> LoginVal.pwd self <> [] ->
      LoginVal.is_email_valid self = true ->
      UserDB_new (db w) = Return tt ->
      forall r,
        fetch_user {[ "email" := LoginVal.email self ]} (db w) = Return r ->
        (truthy_doc r = false ->
         exists w', LoginVal.auth_user self w = (Return PyFalse, w')
                    /\ db w' = db w)
        /\ (forall d hashed ok,
               r = Some d -> d <> ∅ ->
               d !! "password" = Some hashed ->
               verify (LoginVal.pwd self) hashed = Return ok ->
               exists w',
                 LoginVal.auth_user self w
                 = (Return (if ok then PyUser d else PyFalse), w')
                 /\ db w' = db w)).
Proof.
  split.
  - intros H. apply auth_user_invalid. rewrite login_validate_nil.
    intros (? & ? & ?). destruct H as [H | [H | H]]; congruence.
  - intros He Hp Hvalid Hnew r Hfetch.
    assert (LoginVal.validate self = []) as Hv
      by (apply login_validate_nil; tauto).
    pose proof (auth_user_lookup self w r Hv Hnew Hfetch) as Hauth.
    cbv zeta in Hauth. split.
    + intros Hfalsy. rewrite Hfalsy in Hauth. eexists. split; [exact Hauth | reflexivity].
    + intros d hashed ok -> Hd Hpw Hok.
      assert (truthy_doc (Some d) = true) as Ht.
      { unfold truthy_doc. now rewrite bool_decide_eq_false_2. }
      rewrite Ht, Hpw, Hok in Hauth.
      eexists. split; [exact Hauth | reflexivity].
Qed.

End LoginFacts.

(** ** Exceptions *)

Section ExceptionFacts.
Context {Store Rng : Type} `{!UserDB Store, !CryptContext Rng}.
Implicit Types (w : World Store Rng).

Lemma raises_from_ret {A : Type} (own : exn -> Prop) (a : A) :
  raises_from (Store := Store) (Rng := Rng) own (ret a).
Proof. intros w e w' H. discriminate. Qed.

Lemma raises_from_raise {A : Type} (own : exn -> Prop) (e : exn) :
  own e -> raises_from (Store := Store) (Rng := Rng) (A := A) own (raise e).
Proof. intros Ho w e' w' H. injection H as <- _. now left. Qed.

Lemma raises_from_bind {A B : Type} (own : exn -> Prop)
      (m : M Store Rng A) (k : A -> M Store Rng B) :
  raises_from own m -> (forall a, raises_from own (k a)) ->
  raises_from own (bind m k).
Proof.
  intros Hm Hk w e w'. unfold bind.
  destruct (m w) as [[a | e0] w0] eqn:E.
  - apply Hk.
  - intros H. injection H as <- <-. now apply (Hm w).
Qed.

Lemma raises_from_reraise {A : Type} (own : exn -> Prop) (m : M Store Rng A) :
  raises_from own m -> raises_from own (try_except m (fun e => raise e)).
Proof. intros Hm w e w'. rewrite try_except_reraise. apply Hm. Qed.

Lemma raises_from_if {A : Type} (own : exn -> Prop) (b : bool)
      (m1 m2 : M Store Rng A) :
  raises_from own m1 -> raises_from own m2 ->
  raises_from own (if b then m1 else m2).
Proof. now destruct b. Qed.

Lemma raises_from_new (own : exn -> Prop) :
  raises_from (Rng := Rng) own new_UserDB.
Proof.
  intros w e w'. unfold new_UserDB, log.
  destruct (UserDB_new (db w)) as [u | e0]; [discriminate |].
  intros H. injection H as <- <-. right. exists CallNew.
  cbn. now rewrite last_snoc.
Qed.

Lemma raises_from_fetch (own : exn -> Prop) (q : Doc) :
  raises_from (Rng := Rng) own (call_fetch_user q).
Proof.
  intros w e w'. unfold call_fetch_user, log.
  destruct (fetch_user q (db w)) as [u | e0]; [discriminate |].
  intros H. injection H as <- <-. right. exists (CallFetch q).
  cbn. now rewrite last_snoc.
Qed.

Lemma raises_from_add (own : exn -> Prop) (d : Doc) :
  raises_from (Rng := Rng) own (call_add_user d).
Proof.
  intros w e w'. unfold call_add_user.
  destruct (add_user d (db w)) as [[u | e0] st]; [discriminate |].
  intros H. injection H as <- <-. right. exists (CallAdd d).
  cbn. now rewrite last_snoc.
Qed.

Lemma raises_from_hash (own : exn -> Prop) (p : pystr) :
  raises_from (Store := Store) own (call_hash p).
Proof.
  intros w e w'. unfold call_hash.
  destruct (hash p (entropy w)) as [[h | e0] g]; [discriminate |].
  intros H. injection H as <- <-. right. exists (CallHash p).
  cbn. now rewrite last_snoc.
Qed.

Lemma raises_from_verify (own : exn -> Prop) (p h : pystr) :
  raises_from (Store := Store) own (call_verify p h).
Proof.
  intros w e w'. unfold call_verify, log.
  destruct (verify p h) as [b | e0]; [discriminate |].
  intros H. injection H as <- <-. right. exists (CallVerify p h).
  cbn. now rewrite last_snoc.
Qed.

Lemma raises_from_validate (self : RegisterVal.t) :
  raises_from (Rng := Rng) no_own (RegisterVal.validate self).
Proof.
  unfold RegisterVal.validate, RegisterVal.is_user_exists.
  apply raises_from_reraise. cbv zeta.
  apply raises_from_bind; [| intros free; apply raises_from_ret].
  repeat (apply raises_from_bind; [apply raises_from_fetch | intros ?]).
  apply raises_from_ret.
Qed.

Lemma raises_from_save_user (self : RegisterVal.t) :
  raises_from no_own (RegisterVal.save_user self).
Proof.
  unfold RegisterVal.save_user, RegisterVal.validate_reg, RegisterVal.hash_pwd.
  apply raises_from_reraise.
  apply raises_from_bind.
  - apply raises_from_bind; [apply raises_from_validate | intros errors].
    apply raises_from_if; apply raises_from_ret.
  - intros reg_status. apply raises_from_if.
    + apply raises_from_bind; [apply raises_from_hash | intros hashed].
      apply raises_from_bind; [apply raises_from_add | intros _].
      apply raises_from_ret.
    + apply raises_from_bind; [apply raises_from_validate | intros errors].
      apply raises_from_ret.
Qed.

Lemma returns_clean_ret {A : Type} (a : A) :
  returns_clean (Store := Store) (Rng := Rng) (ret a).
Proof.
  intros w a' w' H. injection H as _ <-. exists []. split; [| constructor].
  now rewrite app_nil_r.
Qed.

Lemma returns_clean_raise {A : Type} (e : exn) :
  returns_clean (Store := Store) (Rng := Rng) (A := A) (raise e).
Proof. intros w a w' H. discriminate. Qed.

Lemma returns_clean_bind {A B : Type} (m : M Store Rng A) (k : A -> M Store Rng B) :
  returns_clean m -> (forall a, returns_clean (k a)) -> returns_clean (bind m k).
Proof.
  intros Hm Hk w b w'. unfold bind.
  destruct (m w) as [[a | e] w0] eqn:E; [| discriminate].
  intros H.
  destruct (Hm w a w0 E) as (made1 & E1 & F1).
  destruct (Hk a w0 b w' H) as (made2 & E2 & F2).
  exists (made1 ++ made2). split.
  - now rewrite E2, E1, <- app_assoc.
  - now apply Forall_app.
Qed.

Lemma returns_clean_try {A : Type} (m : M Store Rng A) (wrap : exn -> exn) :
  returns_clean m -> returns_clean (try_except m (fun e => raise (wrap e))).
Proof.
  intros Hm w a w'. unfold try_except, raise.
  destruct (m w) as [[a0 | e] w0] eqn:E; [| discriminate].
  intros H. injection H as <- <-. exact (Hm w _ _ E).
Qed.

Lemma returns_clean_if {A : Type} (b : bool) (m1 m2 : M Store Rng A) :
  returns_clean m1 -> returns_clean m2 -> returns_clean (if b then m1 else m2).
Proof. now destruct b. Qed.

Lemma returns_clean_new : returns_clean (Rng := Rng) new_UserDB.
Proof.
  intros w a w'. unfold new_UserDB, log.
  destruct (UserDB_new (db w)) as [u | e]; [| discriminate].
  intros H. injection H as _ <-. exists [Ev CallNew None].
  split; [reflexivity | now repeat constructor].
Qed.

Lemma returns_clean_fetch (q : Doc) : returns_clean (Rng := Rng) (call_fetch_user q).
Proof.
  intros w a w'. unfold call_fetch_user, log.
  destruct (fetch_user q (db w)) as [u | e]; [| discriminate].
  intros H. injection H as _ <-. exists [Ev (CallFetch q) None].
  split; [reflexivity | now repeat constructor].
Qed.

Lemma returns_clean_add (d : Doc) : returns_clean (Rng := Rng) (call_add_user d).
Proof.
  intros w a w'. unfold call_add_user.
  destruct (add_user d (db w)) as [[u | e] st]; [| discriminate].
  intros H. injection H as _ <-. exists [Ev (CallAdd d) None].
  split; [reflexivity | now repeat constructor].
Qed.

Lemma returns_clean_hash (p : pystr) : returns_clean (Store := Store) (call_hash p).
Proof.
  intros w a w'. unfold call_hash.
  destruct (hash p (entropy w)) as [[h | e] g]; [| discriminate].
  intros H. injection H as _ <-. exists [Ev (CallHash p) None].
  split; [reflexivity | now repeat constructor].
Qed.

Lemma returns_clean_verify (p h : pystr) :
  returns_clean (Store := Store) (call_verify p h).
Proof.
  intros w a w'. unfold call_verify, log.
  destruct (verify p h) as [b | e]; [| discriminate].
  intros H. injection H as _ <-. exists [Ev (CallVerify p h) None].
  split; [reflexivity | now repeat constructor].
Qed.

Lemma returns_clean_validate (self : RegisterVal.t) :
  returns_clean (Rng := Rng) (RegisterVal.validate self).
Proof.
  unfold RegisterVal.validate, RegisterVal.is_user_exists.
  apply returns_clean_try with (wrap := fun e => e). cbv zeta.
  apply returns_clean_bind; [| intros free; apply returns_clean_ret].
  repeat (apply returns_clean_bind; [apply returns_clean_fetch | intros ?]).
  apply returns_clean_ret.
Qed.

Lemma returns_clean_save_user (self : RegisterVal.t) :
  returns_clean (RegisterVal.save_user self).
Proof.
  unfold RegisterVal.save_user, RegisterVal.validate_reg, RegisterVal.hash_pwd.
  apply returns_clean_try with (wrap := fun e => e).
  apply returns_clean_bind.
  - apply returns_clean_bind; [apply returns_clean_validate | intros errors].
    apply returns_clean_if; apply returns_clean_ret.
  - intros reg_status. apply returns_clean_if.
    + apply returns_clean_bind; [apply returns_clean_hash | intros hashed].
      apply returns_clean_bind; [apply returns_clean_add | intros _].
      apply returns_clean_ret.
    + apply returns_clean_bind; [apply returns_clean_validate | intros errors].
      apply returns_clean_ret.
Qed.

Lemma returns_clean_auth_user (self : LoginVal.t) :
  returns_clean (LoginVal.auth_user self).
Proof.
  unfold LoginVal.auth_user, LoginVal.verify_pwd.
  apply returns_clean_try with (wrap := AppException). cbv zeta.
  apply returns_clean_if; [| apply returns_clean_ret].
  apply returns_clean_bind; [apply returns_clean_new | intros _].
  apply returns_clean_bind; [apply returns_clean_fetch | intros [d |]];
    [| apply returns_clean_ret].
  apply returns_clean_if; [apply returns_clean_ret |].
  apply returns_clean_bind.
  - unfold subscript. destruct (d !! "password");
      [apply returns_clean_ret | apply returns_clean_raise].
  - intros hashed.
    apply returns_clean_bind; [apply returns_clean_verify | intros ok].
    apply returns_clean_if; apply returns_clean_ret.
Qed.

(** What [auth_user] raises is what its body raises, wrapped. *)
Lemma auth_user_raises (self : LoginVal.t) w e w' :
  LoginVal.auth_user self w = (Raise e, w') ->
  exists cause,
    e = AppException cause
    /\ (cause = KeyError "password"
        \/ exists c, last (calls w') = Some (Ev c (Some cause))).
Proof.
  unfold LoginVal.auth_user, try_except.
  match goal with
  | |- context [match ?body w with _ => _ end] =>
      assert (Hbody : raises_from (eq (KeyError "password")) body);
      [| destruct (body w) as [[a | cause] w0] eqn:E]
  end.
  - apply raises_from_if; [| apply raises_from_ret].
    apply raises_from_bind; [apply raises_from_new | intros _].
    apply raises_from_bind; [apply raises_from_fetch | intros [d |]];
      [| apply raises_from_ret].
    apply raises_from_if; [apply raises_from_ret |].
    apply raises_from_bind.
    + unfold subscript. destruct (d !! "password");
        [apply raises_from_ret | now apply raises_from_raise].
    + intros hashed.
      apply raises_from_bind; [apply raises_from_verify | intros ok].
      apply raises_from_if; apply raises_from_ret.
  - discriminate.
  - intros H. injection H as <- <-. exists cause. split; [reflexivity |].
    destruct (Hbody w cause w0 E) as [<- | H]; [now left | now right].
Qed.

(** C2, as amended.  Every exception raised by the store or the hasher
    propagates: neither method returns after a collaborator call has
    raised.  The exception reaches the caller of [auth_user] wrapped in
    [AppException], and it reaches the caller of [save_user] unchanged.
    In both cases it is the exception raised by the collaborator call
    logged last (or, for [auth_user], the [KeyError] of a record without
    a password). *)
Theorem exceptions_propagate (login : LoginVal.t) (reg : RegisterVal.t) w :
  (forall e w',
      LoginVal.auth_user login w = (Raise e, w') ->
      exists cause,
        e = AppException cause
        /\ (cause = KeyError "password"
            \/ exists c, last (calls w') = Some (Ev c (Some cause))))
  /\ (forall e w',
         RegisterVal.save_user reg w = (Raise e, w') ->
         exists c, last (calls w') = Some (Ev c (Some e)))
  /\ (forall v w',
         LoginVal.auth_user login w = (Return v, w') ->
         exists made,
           calls w' = calls w ++ made
           /\ Forall (fun ev => raised ev = None) made)
  /\ (forall v w',
         RegisterVal.save_user reg w = (Return v, w') ->
         exists made,
           calls w' = calls w ++ made
           /\ Forall (fun ev => raised ev = None) made).
Proof.
  split; [| split; [| split]].
  - apply auth_user_raises.
  - intros e w' H. destruct (raises_from_save_user reg w e w' H) as [[] | Hc].
    exact Hc.
  - apply returns_clean_auth_user.
  - apply returns_clean_save_user.
Qed.

End ExceptionFacts.

(** ** Registration followed by login *)

Section RoundTrip.
Context {Store Rng : Type} `{!UserDB Store, !CryptContext Rng}.
Implicit Types (self : RegisterVal.t) (w : World Store Rng).

Lemma persisted_record_password self hashed :
  persisted_record self hashed !! "password"%string = Some hashed.
Proof.
  unfold persisted_record. simpl.
  rewrite lookup_insert_ne by discriminate.
  rewrite lookup_insert_ne by discriminate.
  apply lookup_insert_eq.
Qed.

Lemma persisted_record_email self hashed :
  persisted_record self hashed !! "email"%string
  = Some (RegisterVal.email (RegisterVal.user self)).
Proof.
  unfold persisted_record. simpl.
  do 3 (rewrite lookup_insert_ne by discriminate).
  apply lookup_insert_eq.
Qed.

Lemma persisted_record_truthy self hashed :
  truthy_doc (Some (persisted_record self hashed)) = true.
Proof.
  unfold truthy_doc. rewrite bool_decide_eq_false_2; [reflexivity |].
  intros E. pose proof (persisted_record_password self hashed) as H.
  rewrite E, lookup_empty in H. discriminate.
Qed.

(** What a registration that reports success has done. *)
Lemma save_user_accepted self w message w1 :
  RegisterVal.save_user self w = (Return (StatusDict true message), w1) ->
  exists a b c hashed g,
    fetch_user {[ "username" := RegisterVal.username (RegisterVal.user self) ]} (db w)
      = Return a
    /\ fetch_user {[ "email" := RegisterVal.email (RegisterVal.user self) ]} (db w)
      = Return b
    /\ fetch_user {[ "UUID" := RegisterVal.uuid self ]} (db w) = Return c
    /\ failure_messages (registration_checks self
                           (negb (truthy_doc a || truthy_doc b || truthy_doc c))) = []
    /\ hash (RegisterVal.pass1 (RegisterVal.user self)) (entropy w)
       = (Return hashed, g)
    /\ add_user (persisted_record self hashed) (db w) = (Return tt, db w1)
    /\ entropy w1 = g
    /\ calls w1
       = calls w ++ fetched (uniqueness_queries self)
                 ++ [Ev (CallHash (RegisterVal.pass1 (RegisterVal.user self))) None;
                     Ev (CallAdd (persisted_record self hashed)) None]
    /\ message = Some (MsgStr (str "User registered successfully")).
Proof.
  intros H.
  destruct (RegisterVal.validate self w) as [[errors | e] wv] eqn:Hv.
  - destruct errors as [| m errors].
    + pose proof Hv as Hv'. rewrite validate_unfold in Hv'.
      destruct (RegisterVal.is_user_exists self w) as [[free | e] w0] eqn:Hex;
        [| discriminate].
      injection Hv' as Hnil <-.
      apply is_user_exists_inv in Hex as (a & b & c & Ha & Hb & Hc & -> & ->).
      exists a, b, c.
      unfold RegisterVal.save_user in H. rewrite try_except_reraise in H.
      unfold bind at 1 in H. unfold RegisterVal.validate_reg in H.
      unfold bind at 1 in H. rewrite Hv in H.
      cbn [truthy_list] in H. unfold ret at 1 in H. cbn [status] in H.
      unfold bind, RegisterVal.hash_pwd, call_hash in H. cbn [db entropy calls] in H.
      destruct (hash (RegisterVal.pass1 (RegisterVal.user self)) (entropy w))
        as [[hashed | e] g] eqn:Hh; [| discriminate].
      unfold call_add_user in H. cbn [db entropy calls raised_by] in H.
      fold (persisted_record self hashed) in H.
      destruct (add_user (persisted_record self hashed) (db w))
        as [[[] | e] st'] eqn:Hadd; [| discriminate].
      unfold ret in H. injection H as <- <-.
      exists hashed, g. cbn [db entropy calls raised_by].
      repeat split; try assumption.
      now rewrite <- !app_assoc.
    + rewrite (save_user_rejected self w (m :: errors) wv Hv) in H by discriminate.
      discriminate.
  - unfold RegisterVal.save_user in H. rewrite try_except_reraise in H.
    unfold bind at 1 in H. unfold RegisterVal.validate_reg in H.
    unfold bind at 1 in H. rewrite Hv in H. discriminate.
Qed.

(** C5. After a registration that reports success, the record handed to
    the store carries as its password the salted hash of [pass1], which
    is not [pass1] itself; and on any later world with that store, a
    login with the same email returns that record when the password is
    [pass1] and returns [False] when it is any other password. *)
Theorem register_then_login
        `{!UserDBLaws Store, !CryptLaws Rng} self w message w1 :
  RegisterVal.save_user self w = (Return (StatusDict true message), w1) ->
  exists hashed g,
    hash (RegisterVal.pass1 (RegisterVal.user self)) (entropy w)
    = (Return hashed, g)
    /\ last (calls w1) = Some (Ev (CallAdd (persisted_record self hashed)) None)
    /\ add_user (persisted_record self hashed) (db w) = (Return tt, db w1)
    /\ persisted_record self hashed !! "password"%string = Some hashed
    /\ hashed <> RegisterVal.pass1 (RegisterVal.user self)
    /\ forall w2 pwd,
        db w2 = db w1 ->
        UserDB_new (db w2) = Return tt ->
        exists w3,
          LoginVal.auth_user
            (LoginVal.Build (RegisterVal.email (RegisterVal.user self)) pwd) w2
          = (Return (if bool_decide (pwd = RegisterVal.pass1 (RegisterVal.user self))
                     then PyUser (persisted_record self hashed)
                     else PyFalse), w3).
Proof.
  intros H.
  apply save_user_accepted in H
    as (a & b & c & hashed & g & Ha & Hb & Hc & Hnil & Hh & Hadd & _ & Hcalls & _).
  exists hashed, g.
  split; [exact Hh |]. split.
  { rewrite Hcalls, app_assoc.
    change [Ev (CallHash (RegisterVal.pass1 (RegisterVal.user self))) None;
            Ev (CallAdd (persisted_record self hashed)) None]
      with ([Ev (CallHash (RegisterVal.pass1 (RegisterVal.user self))) None]
              ++ [Ev (CallAdd (persisted_record self hashed)) None]).
    now rewrite app_assoc, last_snoc. }
  split; [exact Hadd |].
  split; [apply persisted_record_password |].
  split; [exact (hash_not_plain _ _ _ _ Hh) |].
  intros w2 pwd Hdb Hnew.
  set (checks := registration_checks self
                   (negb (truthy_doc a || truthy_doc b || truthy_doc c))) in Hnil.
  assert (Hemail : truthy_str (RegisterVal.email (RegisterVal.user self)) = true)
    by (apply (failure_messages_nil checks _ "Email is required" Hnil);
        unfold checks, registration_checks; simpl; tauto).
  assert (Hpass : truthy_str (RegisterVal.pass1 (RegisterVal.user self)) = true)
    by (apply (failure_messages_nil checks _ "Password is required" Hnil);
        unfold checks, registration_checks; simpl; tauto).
  assert (Hvalid : RegisterVal.is_email_valid self = true)
    by (apply (failure_messages_nil checks _ "Invalid Email" Hnil);
        unfold checks, registration_checks; simpl; tauto).
  assert (Hfree : negb (truthy_doc a || truthy_doc b || truthy_doc c) = true)
    by (apply (failure_messages_nil checks _ "User already exists" Hnil);
        unfold checks, registration_checks; simpl; tauto).
  assert (Hb' : truthy_doc b = false).
  { apply negb_true_iff in Hfree.
    apply orb_false_iff in Hfree as [Hab _].
    now apply orb_false_iff in Hab as [_ Hb']. }
  assert (Hfetch :
            fetch_user {[ "email" := RegisterVal.email (RegisterVal.user self) ]} (db w2)
            = Return (Some (persisted_record self hashed))).
  { rewrite Hdb.
    apply (fetch_after_add _ _ _ (db w) (db w1) b Hb Hb'
                           (persisted_record_email self hashed) Hadd). }
  set (login := LoginVal.Build (RegisterVal.email (RegisterVal.user self)) pwd).
  destruct (LoginVal.validate login) as [| m errors] eqn:Hv.
  - pose proof (auth_user_lookup login w2 _ Hv Hnew Hfetch) as Hauth.
    cbv zeta in Hauth.
    rewrite persisted_record_truthy, persisted_record_password in Hauth.
    cbn [LoginVal.pwd login] in Hauth.
    case_bool_decide as Hpwd.
    + subst pwd. rewrite (verify_hash _ _ _ _ Hh) in Hauth.
      eexists. exact Hauth.
    + rewrite (verify_other _ _ _ _ _ Hh Hpwd) in Hauth.
      eexists. exact Hauth.
  - exists w2. rewrite auth_user_invalid by (rewrite Hv; discriminate).
    rewrite bool_decide_eq_false_2; [reflexivity |].
    intros ->.
    assert (LoginVal.validate login = []) as Hv'.
    { apply login_validate_nil. unfold login. simpl.
      split; [| split; [| exact Hvalid]].
      - intros E. rewrite E in Hemail. discriminate.
      - intros E. rewrite E in Hpass. discriminate. }
    rewrite Hv' in Hv. discriminate.
Qed.

End RoundTrip.

(** ** The reference collaborators obey the laws *)

Section ReferenceLaws.

Lemma agrees_singleton (k : string) (v : pystr) (d : Doc) :
  MemStore.agrees {[ k := v ]} d = bool_decide (d !! k = Some v).
Proof.
  unfold MemStore.agrees. rewrite map_to_list_singleton. simpl.
  apply andb_true_r.
Qed.

Lemma find_none_snoc {A : Type} (f : A -> bool) (l : list A) (x : A) :
  List.find f l = None -> List.find f (l ++ [x]) = List.find f [x].
Proof.
  induction l as [| y l IH]; simpl; [reflexivity |].
  destruct (f y); [discriminate | exact IH].
Qed.

#[global] Instance memstore_laws : UserDBLaws MemStore.t.
Proof.
  constructor. intros k v d st st' r Hf Hr Hd Hadd. simpl in *.
  unfold MemStore.fetch, MemStore.add in *.
  destruct (MemStore.online st); [| discriminate].
  injection Hf as <-. injection Hadd as <-. simpl. f_equal.
  assert (List.find (MemStore.agrees {[ k := v ]}) (MemStore.docs st) = None) as Hnone.
  { destruct (List.find _ (MemStore.docs st)) as [x |] eqn:E; [| reflexivity].
    apply find_some in E as [_ E]. rewrite agrees_singleton in E.
    apply bool_decide_eq_true_1 in E.
    simpl in Hr. apply negb_false_iff, bool_decide_eq_true_1 in Hr. subst x.
    rewrite lookup_empty in E. discriminate. }
  rewrite (find_none_snoc _ _ _ Hnone). simpl.
  rewrite agrees_singleton, bool_decide_eq_true_2; [reflexivity | assumption].
Qed.

Lemma toy_hash_inv (p h : pystr) (g g' : list N) :
  hash p g = (Return h, g') ->
  exists salt, h = ToyCrypt.prefix ++ salt :: ord "$" :: p.
Proof.
  simpl. unfold ToyCrypt.toy_hash. destruct g as [| salt g]; [discriminate |].
  intros H. injection H as <- _. now exists salt.
Qed.

Lemma toy_verify_digest (p q : pystr) (salt : N) :
  verify q (ToyCrypt.prefix ++ salt :: ord "$" :: p) = Return (str_eqb p q).
Proof.
  reflexivity.
Qed.

#[global] Instance toycrypt_laws : CryptLaws (list N).
Proof.
  constructor.
  - intros p h g g' H. apply toy_hash_inv in H as [salt ->].
    rewrite toy_verify_digest. unfold str_eqb.
    now rewrite bool_decide_eq_true_2.
  - intros p q h g g' H Hne. apply toy_hash_inv in H as [salt ->].
    rewrite toy_verify_digest. unfold str_eqb.
    rewrite bool_decide_eq_false_2; [reflexivity | congruence].
  - intros p h g g' H. apply toy_hash_inv in H as [salt ->].
    intros E. apply (f_equal (@length N)) in E. simpl in E. lia.
Qed.

End ReferenceLaws.

(** ** Concrete runs *)

Import Sample.

(** C1, at the inputs where the pattern and its description part.  The
    bracket expression [[.-_]] is a range that does not contain the
    hyphen and does contain [/] and [@], and [[A-Z|a-z]] contains [|]:
    [is_email_valid] rejects the well-formed address [a-b@c.com], and
    accepts [a/b@c.com], [a@b@c.com] and [a@b.c|], which contain
    characters outside the described shape. *)
Theorem is_email_valid_bracket_slips :
  RegisterVal.is_email_valid (with_email "a-b@c.com") = false
  /\ LoginVal.is_email_valid (LoginVal.Build (str "a-b@c.com") (str "password1"))
     = false
  /\ RegisterVal.is_email_valid (with_email "a/b@c.com") = true
  /\ RegisterVal.is_email_valid (with_email "a@b@c.com") = true
  /\ RegisterVal.is_email_valid (with_email "a@b.c|") = true.
Proof. repeat split; vm_compute; reflexivity. Qed.

(** The addresses of the intended shape that avoid the hyphen are
    accepted, and strings without [@] or without a top-level domain are
    rejected. *)
Example is_email_valid_samples :
  List.map (fun a => RegisterVal.is_email_valid (with_email a))
           [ "a@b.com"; "a.b_c@d-e.co.uk"; "ab.com"; "a@b"; "a@b.c"; "a b@c.com" ]%string
  = [ true; true; false; false; false; false ].
Proof. vm_compute. reflexivity. Qed.

(** The store being unreachable, [save_user] raises the store's own
    exception, which is not an [AppException]. *)
Lemma save_user_raises_unwrapped :
  fetch_user {[ "username" := str "alice" ]} (db offline_world)
  = Raise MemStore.unreachable
  /\ fst (RegisterVal.save_user alice_reg offline_world)
     = Raise MemStore.unreachable
  /\ (forall cause, MemStore.unreachable <> AppException cause).
Proof. repeat split. intros cause. discriminate. Qed.

(** The scenario of the specification: registration on the empty store,
    a second registration of the same candidate, then a login with the
    right and with a wrong password. *)
Example scenario_register :
  RegisterVal.save_user alice_reg empty_world
  = (Return (StatusDict true (Some (MsgStr (str "User registered successfully")))),
     alice_registered).
Proof. vm_compute. reflexivity. Qed.

Example scenario_register_again :
  fst (RegisterVal.save_user alice_reg registered_world)
  = Return (StatusDict false (Some (MsgList [str "User already exists"]))).
Proof. vm_compute. reflexivity. Qed.

Example scenario_login :
  fst (LoginVal.auth_user alice_login registered_world)
  = Return (PyUser alice_record)
  /\ fst (LoginVal.auth_user wrong_login registered_world) = Return PyFalse.
Proof. split; vm_compute; reflexivity. Qed.



(** ** The theorems at the sample inputs *)

Lemma bob_passwords_differ :
  RegisterVal.pass1 (RegisterVal.user bob_reg)
  <> RegisterVal.pass2 (RegisterVal.user bob_reg).
Proof. intros E. vm_compute in E. discriminate. Qed.

Lemma alice_record_not_empty : alice_record <> ∅.
Proof.
  intros E. apply (f_equal (fun d : Doc => d !! "email"%string)) in E.
  vm_compute in E. discriminate.
Qed.

Lemma exceptions_propagate_witness :
  (exists cause,
      AppException MemStore.unreachable = AppException cause
      /\ (cause = KeyError "password"
          \/ exists c,
              last (calls (snd (LoginVal.auth_user alice_login offline_world)))
              = Some (Ev c (Some cause))))
  /\ (exists c,
         last (calls (snd (RegisterVal.save_user alice_reg offline_world)))
         = Some (Ev c (Some MemStore.unreachable)))
  /\ (exists made,
         calls (snd (LoginVal.auth_user alice_login registered_world))
         = calls registered_world ++ made
         /\ Forall (fun ev => raised ev = None) made)
  /\ (exists made,
         calls alice_registered = calls empty_world ++ made
         /\ Forall (fun ev => raised ev = None) made).
Proof.
  split; [| split; [| split]].
  - refine (proj1 (exceptions_propagate alice_login alice_reg offline_world)
                  (AppException MemStore.unreachable)
                  (snd (LoginVal.auth_user alice_login offline_world)) _).
    vm_compute. reflexivity.
  - refine (proj1 (proj2 (exceptions_propagate alice_login alice_reg offline_world))
                  MemStore.unreachable
                  (snd (RegisterVal.save_user alice_reg offline_world)) _).
    vm_compute. reflexivity.
  - refine (proj1 (proj2 (proj2 (exceptions_propagate alice_login alice_reg
                                   registered_world)))
                  (PyUser alice_record)
                  (snd (LoginVal.auth_user alice_login registered_world)) _).
    vm_compute. reflexivity.
  - refine (proj2 (proj2 (proj2 (exceptions_propagate alice_login alice_reg
                                   empty_world)))
                  (StatusDict true (Some (MsgStr (str "User registered successfully"))))
                  alice_registered _).
    vm_compute. reflexivity.
Defined.

Lemma save_user_failure_no_insert_witness :
  (exists w2,
      RegisterVal.save_user bob_reg empty_world
      = (Return (StatusDict false (Some (MsgList bob_errors))), w2)
      /\ untouched empty_world w2)
  /\ untouched empty_world (snd (RegisterVal.save_user bob_reg empty_world))
  /\ (exists errors w2,
         RegisterVal.save_user bob_reg empty_world
         = (Return (StatusDict false (Some (MsgList errors))), w2)
         /\ In (str "Passwords do not match") errors).
Proof.
  split; [| split].
  - refine (proj1 (save_user_failure_no_insert bob_reg empty_world)
                  bob_errors bob_validated _ _).
    + vm_compute. reflexivity.
    + discriminate.
  - exact (proj1 (proj2 (save_user_failure_no_insert bob_reg empty_world)
                        bob_passwords_differ)).
  - refine (proj2 (proj2 (save_user_failure_no_insert bob_reg empty_world)
                         bob_passwords_differ) None None None _ _ _);
      vm_compute; reflexivity.
Defined.

Lemma save_user_duplicate_witness :
  exists errors w2,
    RegisterVal.save_user alice_reg registered_world
    = (Return (StatusDict false (Some (MsgList errors))), w2)
    /\ In (str "User already exists") errors
    /\ untouched registered_world w2.
Proof.
  refine (save_user_duplicate alice_reg registered_world
            (Some alice_record) (Some alice_record) (Some alice_record)
            _ _ _ _).
  - vm_compute. reflexivity.
  - vm_compute. reflexivity.
  - vm_compute. reflexivity.
  - left. unfold truthy_doc.
    now rewrite (bool_decide_eq_false_2 _ alice_record_not_empty).
Defined.

Lemma validate_collects_in_order_witness :
  RegisterVal.validate bob_reg empty_world = (Return bob_errors, bob_validated).
Proof.
  refine (eq_trans (proj1 (validate_collects_in_order bob_reg empty_world
                             None None None _ _ _)) _);
    vm_compute; reflexivity.
Defined.

Lemma save_user_validates_twice_witness :
  exists errors2 w2,
    RegisterVal.validate bob_reg bob_validated = (Return errors2, w2)
    /\ RegisterVal.save_user bob_reg empty_world
       = (Return (StatusDict false (Some (MsgList errors2))), w2)
    /\ calls bob_validated
       = calls empty_world ++ fetched (uniqueness_queries bob_reg)
    /\ calls w2 = calls bob_validated ++ fetched (uniqueness_queries bob_reg)
    /\ (forall w' : World MemStore.t (list N), db w' = db empty_world ->
        fst (RegisterVal.validate bob_reg w') = Return bob_errors)
    /\ errors2 = bob_errors.
Proof.
  refine (save_user_validates_twice bob_reg empty_world bob_errors
            bob_validated _ _).
  - vm_compute. reflexivity.
  - discriminate.
Defined.

Lemma password_length_check_witness :
  (forall errors w1,
      RegisterVal.validate bob_reg empty_world = (Return errors, w1) ->
      In (str "Password must be 8-16 characters long") errors)
  /\ (exists errors w2,
         RegisterVal.save_user bob_reg empty_world
         = (Return (StatusDict false (Some (MsgList errors))), w2)
         /\ In (str "Password must be 8-16 characters long") errors).
Proof.
  assert (Hshort : (length (RegisterVal.pass1 (RegisterVal.user bob_reg)) < 8
                    \/ 16 < length (RegisterVal.pass1 (RegisterVal.user bob_reg)))%nat)
    by (left; vm_compute; lia).
  split.
  - exact (proj1 (proj2 (password_length_check bob_reg) Hshort empty_world)).
  - refine (proj2 (proj2 (password_length_check bob_reg) Hshort empty_world)
                  None None None _ _ _);
      vm_compute; reflexivity.
Defined.

Lemma login_validate_empty_email_witness :
  In (str "Email is required") (LoginVal.validate (LoginVal.Build [] (str "password1")))
  /\ In (str "Invalid Email") (LoginVal.validate (LoginVal.Build [] (str "password1")))
  /\ LoginVal.validate (LoginVal.Build [] (str "password1"))
     = str "Email is required"
       :: (if truthy_str (LoginVal.pwd (LoginVal.Build [] (str "password1")))
           then [] else [str "Password is required"])
       ++ [str "Invalid Email"].
Proof.
  exact (login_validate_empty_email (LoginVal.Build [] (str "password1")) eq_refl).
Defined.

Lemma auth_user_cases_witness :
  LoginVal.auth_user (LoginVal.Build (str "a@b") (str "password1")) registered_world
  = (Return PyFalse, registered_world)
  /\ (exists w',
         LoginVal.auth_user alice_login empty_world = (Return PyFalse, w')
         /\ db w' = db empty_world)
  /\ (exists w',
         LoginVal.auth_user alice_login registered_world
         = (Return (if true then PyUser alice_record else PyFalse), w')
         /\ db w' = db registered_world)
  /\ (exists w',
         LoginVal.auth_user wrong_login registered_world
         = (Return (if false then PyUser alice_record else PyFalse), w')
         /\ db w' = db registered_world).
Proof.
  assert (Hvalid : LoginVal.is_email_valid alice_login = true)
    by (vm_compute; reflexivity).
  split; [| split; [| split]].
  - refine (proj1 (auth_user_cases
                     (LoginVal.Build (str "a@b") (str "password1"))
                     registered_world) _).
    right. right. vm_compute. reflexivity.
  - refine (proj1 (proj2 (auth_user_cases alice_login empty_world)
                         _ _ Hvalid _ None _) _);
      try discriminate; vm_compute; reflexivity.
  - refine (proj2 (proj2 (auth_user_cases alice_login registered_world)
                         _ _ Hvalid _ (Some alice_record) _)
                  alice_record alice_digest true eq_refl
                  alice_record_not_empty _ _);
      try discriminate; vm_compute; reflexivity.
  - refine (proj2 (proj2 (auth_user_cases wrong_login registered_world)
                         _ _ Hvalid _ (Some alice_record) _)
                  alice_record alice_digest false eq_refl
                  alice_record_not_empty _ _);
      try discriminate; vm_compute; reflexivity.
Defined.

Lemma register_then_login_witness :
  exists hashed g,
    hash (RegisterVal.pass1 (RegisterVal.user alice_reg)) (entropy empty_world)
    = (Return hashed, g)
    /\ last (calls alice_registered)
       = Some (Ev (CallAdd (persisted_record alice_reg hashed)) None)
    /\ add_user (persisted_record alice_reg hashed) (db empty_world)
       = (Return tt, db alice_registered)
    /\ persisted_record alice_reg hashed !! "password"%string = Some hashed
    /\ hashed <> RegisterVal.pass1 (RegisterVal.user alice_reg)
    /\ forall w2 pwd,
        db w2 = db alice_registered ->
        UserDB_new (db w2) = Return tt ->
        exists w3,
          LoginVal.auth_user
            (LoginVal.Build (RegisterVal.email (RegisterVal.user alice_reg)) pwd) w2
          = (Return (if bool_decide (pwd = RegisterVal.pass1 (RegisterVal.user alice_reg))
                     then PyUser (persisted_record alice_reg hashed)
                     else PyFalse), w3).
Proof.
  refine (register_then_login alice_reg empty_world
            (Some (MsgStr (str "User registered successfully")))
            alice_registered _).
  vm_compute. reflexivity.
Defined.

(** ** The pattern, as a grammar *)

Module AddressFacts.
Import Re Address.

Lemma lang_cat (r1 r2 : regex) (s : pystr) :
  lang (Cat r1 r2) s
  <-> exists s1 s2, s = s1 ++ s2 /\ lang r1 s1 /\ lang r2 s2.
Proof.
  split.
  - inversion 1; subst. now eexists _, _.
  - intros (s1 & s2 & -> & H1 & H2). now constructor.
Qed.

Lemma lang_set (cs : charset) (s : pystr) :
  lang (Set_ cs) s <-> exists c, s = [c] /\ in_set cs c = true.
Proof.
  split.
  - inversion 1; subst. now eexists.
  - intros (c & -> & H). now constructor.
Qed.

(** Repetition, when one iteration is the rendering [f x] of some [x]
    that satisfies [ok]. *)
Lemma lang_star_map {X : Type} (r : regex) (ok : X -> bool) (f : X -> pystr) :
  (forall s, lang r s <-> exists x, ok x = true /\ s = f x) ->
  forall s,
    lang (Star r) s
    <-> exists xs, forallb ok xs = true /\ s = concat (List.map f xs).
Proof.
  intros Hr s. split.
  - intros H. remember (Star r) as r' eqn:E.
    induction H as [| | | | | r0 | r0 s1 s2 H1 _ H2 IH2]; try discriminate.
    + exists []. now split.
    + injection E as ->.
      destruct (IH2 eq_refl) as (xs & Hxs & ->).
      apply Hr in H1 as (x & Hx & ->).
      exists (x :: xs). simpl. now rewrite Hx, Hxs.
  - intros (xs & Hxs & ->).
    induction xs as [| x xs IH]; simpl in *; [constructor |].
    apply andb_true_iff in Hxs as [Hx Hxs].
    constructor; [apply Hr; now exists x | now apply IH].
Qed.

Lemma lang_plus_map {X : Type} (r : regex) (ok : X -> bool) (f : X -> pystr) :
  (forall s, lang r s <-> exists x, ok x = true /\ s = f x) ->
  forall s,
    lang (Plus r) s
    <-> exists xs,
        truthy_list xs = true /\ forallb ok xs = true
        /\ s = concat (List.map f xs).
Proof.
  intros Hr s. unfold Plus. rewrite lang_cat. split.
  - intros (s1 & s2 & -> & H1 & H2).
    apply Hr in H1 as (x & Hx & ->).
    apply (lang_star_map r ok f Hr) in H2 as (xs & Hxs & ->).
    exists (x :: xs). simpl. now rewrite Hx, Hxs.
  - intros ([| x xs] & Hne & Hxs & ->); [discriminate |].
    simpl in *. apply andb_true_iff in Hxs as [Hx Hxs].
    exists (f x), (concat (List.map f xs)). split; [reflexivity |]. split.
    + apply Hr. now exists x.
    + apply (lang_star_map r ok f Hr). now exists xs.
Qed.

Lemma concat_singletons (s : pystr) :
  concat (List.map (fun c => [c]) s) = s.
Proof. induction s as [| c s IH]; simpl; [reflexivity | now rewrite IH]. Qed.

Lemma lang_set_one (cs : charset) (s : pystr) :
  lang (Set_ cs) s <-> exists c, in_set cs c = true /\ s = (fun c => [c]) c.
Proof. rewrite lang_set. split; intros (c & H1 & H2); now exists c. Qed.

Lemma lang_star_set (cs : charset) (s : pystr) :
  lang (Star (Set_ cs)) s <-> all_in cs s = true.
Proof.
  rewrite (lang_star_map _ _ _ (lang_set_one cs)). split.
  - intros (xs & Hxs & ->). now rewrite concat_singletons.
  - intros H. exists s. now rewrite concat_singletons.
Qed.

Lemma lang_plus_set (cs : charset) (s : pystr) :
  lang (Plus (Set_ cs)) s <-> word cs s = true.
Proof.
  rewrite (lang_plus_map _ _ _ (lang_set_one cs)). unfold word, all_in.
  rewrite andb_true_iff. split.
  - intros (xs & Hne & Hxs & ->). rewrite concat_singletons.
    split; [now destruct xs | assumption].
  - intros [Hne H]. exists s. rewrite concat_singletons.
    repeat split; [now destruct s | assumption].
Qed.

Lemma lang_atleast2_set (cs : charset) (s : pystr) :
  lang (AtLeast2 (Set_ cs)) s
  <-> (2 <=? length s)%nat && all_in cs s = true.
Proof.
  unfold AtLeast2. rewrite lang_cat. split.
  - intros (s1 & s2 & -> & H1 & H2).
    apply lang_set in H1 as (c1 & -> & Hc1).
    apply lang_cat in H2 as (s3 & s4 & -> & H3 & H4).
    apply lang_set in H3 as (c2 & -> & Hc2).
    apply lang_star_set in H4. simpl. now rewrite Hc1, Hc2, H4.
  - intros H. apply andb_true_iff in H as [Hlen H].
    destruct s as [| c1 [| c2 s]]; try discriminate.
    simpl in H. apply andb_true_iff in H as [Hc1 H].
    apply andb_true_iff in H as [Hc2 H].
    exists [c1], (c2 :: s). repeat split; [now constructor |].
    apply lang_cat. exists [c2], s. repeat split; [now constructor |].
    now apply lang_star_set.
Qed.

Lemma lang_run (s : pystr) :
  lang (Cat (Plus (Set_ alnum)) (Set_ separator)) s
  <-> exists rs, run_ok rs = true /\ s = render_run rs.
Proof.
  rewrite lang_cat. unfold run_ok, render_run. split.
  - intros (s1 & s2 & -> & H1 & H2).
    apply lang_plus_set in H1. apply lang_set in H2 as (c & -> & Hc).
    exists (s1, c). cbn [fst snd]. now rewrite H1, Hc.
  - intros ([s1 c] & H & ->). cbn [fst snd] in *.
    apply andb_true_iff in H as [H1 Hc].
    exists s1, [c]. repeat split; [now apply lang_plus_set | now constructor].
Qed.

Lemma lang_tld (s : pystr) :
  lang (Cat (Set_ [chr "."]) (AtLeast2 (Set_ tld_set))) s
  <-> exists l, tld_ok l = true /\ s = render_tld l.
Proof.
  rewrite lang_cat. unfold tld_ok, render_tld. split.
  - intros (s1 & s2 & -> & H1 & H2).
    apply lang_set in H1 as (c & -> & Hc).
    apply lang_atleast2_set in H2.
    assert (c = ord ".") as ->.
    { unfold in_set, in_range in Hc. simpl in Hc.
      rewrite orb_false_r in Hc. apply andb_true_iff in Hc as [Hlo Hhi].
      apply N.leb_le in Hlo, Hhi. unfold ord. simpl. lia. }
    now exists s2.
  - intros (l & H & ->).
    exists [ord "."], l. repeat split; [now constructor |].
    now apply lang_atleast2_set.
Qed.

(** The strings that the pattern matches are the renderings of
    well-formed parts. *)
Lemma fullmatch_email_parses (s : pystr) :
  fullmatch email_regex s = true <-> parses s.
Proof.
  rewrite ReFacts.fullmatch_lang, ReFacts.email_regex_split.
  unfold parses, local_part, domain_part, render, well_formed.
  fold separator label_set tld_set. split.
  - intros (l & d & -> & Hl & Hd).
    apply lang_cat in Hl as (x & y & -> & Hx & Hy).
    apply (lang_star_map _ _ _ lang_run) in Hx as (rs & Hrs & ->).
    apply lang_plus_set in Hy.
    apply lang_cat in Hd as (lab & z & -> & Hlab & Hz).
    apply lang_plus_set in Hlab.
    apply (lang_plus_map _ _ _ lang_tld) in Hz as (tl & Hne & Htl & ->).
    exists (Build rs y lab tl). simpl.
    rewrite Hrs, Hy, Hlab, Hne, Htl. split; [reflexivity |].
    now rewrite <- app_assoc.
  - intros ([rs y lab tl] & Hwf & ->). simpl in *.
    repeat (apply andb_true_iff in Hwf as [Hwf ?]).
    exists (concat (List.map render_run rs) ++ y),
           (lab ++ concat (List.map render_tld tl)).
    split; [now rewrite <- app_assoc |]. split.
    + apply lang_cat. eexists _, _. split; [reflexivity |]. split.
      * apply (lang_star_map _ _ _ lang_run). now exists rs.
      * now apply lang_plus_set.
    + apply lang_cat. eexists _, _. split; [reflexivity |]. split.
      * now apply lang_plus_set.
      * apply (lang_plus_map _ _ _ lang_tld). now exists tl.
Qed.

End AddressFacts.

(** ** Which addresses the validators accept *)

Section AddressClaims.
Import Re Address.

Lemma render_has_at (a : Address.t) : In (ord "@") (render a).
Proof. unfold render. rewrite !in_app_iff. simpl. tauto. Qed.

Lemma word_inv (cs : charset) (s : pystr) :
  word cs s = true ->
  exists c s', s = c :: s' /\ in_set cs c = true /\ all_in cs s' = true.
Proof.
  unfold word, all_in. destruct s as [| c s']; [discriminate |]. simpl.
  intros H. apply andb_true_iff in H as [Hc Hs]. now exists c, s'.
Qed.

Lemma render_starts_alnum (a : Address.t) :
  well_formed a = true ->
  exists c s', render a = c :: s' /\ in_set alnum c = true.
Proof.
  unfold well_formed, render. intros H.
  repeat (apply andb_true_iff in H as [H ?]).
  destruct (runs a) as [| [run sep] rs]; simpl in *.
  - match goal with Hw : word alnum (last_run a) = true |- _ =>
      apply word_inv in Hw as (c & s' & -> & Hc & _) end.
    now eexists _, _.
  - apply andb_true_iff in H as [Hrun _]. unfold run_ok in Hrun. simpl in Hrun.
    apply andb_true_iff in Hrun as [Hrun _].
    apply word_inv in Hrun as (c & s' & -> & Hc & _).
    now eexists _, _.
Qed.

Lemma render_ends_tld (a : Address.t) :
  well_formed a = true ->
  exists pre l,
    render a = pre ++ ord "." :: l
    /\ (2 <= length l)%nat /\ all_in tld_set l = true.
Proof.
  unfold well_formed, render. intros H.
  repeat (apply andb_true_iff in H as [H ?]).
  destruct (tlds a) as [| t0 tl] using rev_ind; [discriminate |].
  match goal with Hf : forallb tld_ok _ = true |- _ =>
    rewrite forallb_app in Hf; apply andb_true_iff in Hf as [_ Hf];
    simpl in Hf; rewrite andb_true_r in Hf; unfold tld_ok in Hf;
    apply andb_true_iff in Hf as [Hlen Hall] end.
  exists (concat (List.map render_run (runs a)) ++ last_run a
          ++ ord "@" :: label a ++ concat (List.map render_tld tl)), t0.
  split; [| split; [now apply Nat.leb_le | assumption]].
  rewrite List.map_app, concat_app. simpl. unfold render_tld at 2.
  rewrite app_nil_r, <- !app_assoc. simpl. now rewrite <- !app_assoc.
Qed.

Lemma render_length (a : Address.t) :
  well_formed a = true -> (6 <= length (render a))%nat.
Proof.
  intros H. destruct (render_ends_tld a H) as (pre & l & E & Hl & _).
  unfold well_formed in H. repeat (apply andb_true_iff in H as [H ?]).
  assert (Hlast : (1 <= length (last_run a))%nat).
  { match goal with Hw : word alnum (last_run a) = true |- _ =>
      apply word_inv in Hw as (c & s' & -> & _) end. simpl. lia. }
  assert (Hlab : (1 <= length (label a))%nat).
  { match goal with Hw : word label_set (label a) = true |- _ =>
      apply word_inv in Hw as (c & s' & -> & _) end. simpl. lia. }
  assert (Htl : (3 <= length (concat (List.map render_tld (tlds a))))%nat).
  { destruct (tlds a) as [| t0 tl]; [discriminate |].
    match goal with Hf : forallb tld_ok _ = true |- _ =>
      simpl in Hf; apply andb_true_iff in Hf as [Hf _]; unfold tld_ok in Hf;
      apply andb_true_iff in Hf as [Hlen _]; apply Nat.leb_le in Hlen end.
    simpl. rewrite length_app. lia. }
  unfold render. rewrite !length_app. simpl. rewrite length_app. lia.
Qed.

Lemma in_set_outside (cs : charset) (c : N) :
  forallb (fun r => (45 <=? fst r)%N && (snd r <=? 124)%N) cs = true ->
  (c < 45 \/ 124 < c)%N ->
  in_set cs c = false.
Proof.
  intros Hcs Hc. unfold in_set.
  induction cs as [| [lo hi] cs IH]; simpl in *; [reflexivity |].
  apply andb_true_iff in Hcs as [Hr Hcs].
  apply andb_true_iff in Hr as [Hlo Hhi].
  apply N.leb_le in Hlo, Hhi.
  rewrite (IH Hcs), orb_false_r. unfold in_range. simpl.
  apply andb_false_iff.
  destruct Hc as [Hc | Hc]; [left | right]; apply N.leb_gt; lia.
Qed.

Lemma email_regex_alphabet (c : N) :
  (c < 45 \/ 124 < c)%N -> excludes c email_regex = true.
Proof.
  intros Hc. unfold email_regex, Plus, AtLeast2. cbn [excludes].
  rewrite !(in_set_outside _ c) by first [reflexivity | exact Hc].
  reflexivity.
Qed.

(** X1. Both validators accept exactly the strings that consist of: any
    number of groups, each a non-empty run of letters and digits followed
    by one character of the range ['.']..['_']; a non-empty run of letters
    and digits; [@]; a non-empty run of letters, digits and hyphens; and
    one or more groups of a dot followed by two or more characters among
    the letters and [|]. *)
Theorem is_email_valid_grammar :
  (forall self : RegisterVal.t,
      RegisterVal.is_email_valid self = true
      <-> parses (RegisterVal.email (RegisterVal.user self)))
  /\ (forall login : LoginVal.t,
         LoginVal.is_email_valid login = true <-> parses (LoginVal.email login)).
Proof.
  split; intros x; apply AddressFacts.fullmatch_email_parses.
Qed.

(** X2. An accepted address contains [@], has at least six characters,
    begins with a letter or a digit, ends with a dot followed by two or
    more characters among the letters and [|], and has no character
    outside the range ['-']..['|'] (so no blank and nothing beyond
    ASCII). *)
Theorem is_email_valid_necessary (self : RegisterVal.t) :
  RegisterVal.is_email_valid self = true ->
  let s := RegisterVal.email (RegisterVal.user self) in
  In (ord "@") s
  /\ (6 <= length s)%nat
  /\ (exists c s', s = c :: s' /\ in_set alnum c = true)
  /\ (exists pre l,
         s = pre ++ ord "." :: l
         /\ (2 <= length l)%nat /\ all_in tld_set l = true)
  /\ Forall (fun c => (45 <= c <= 124)%N) s.
Proof.
  intros H s. pose proof H as Hp.
  apply AddressFacts.fullmatch_email_parses in Hp as (a & Hwf & E).
  fold s in E. rewrite E.
  split; [apply render_has_at |].
  split; [now apply render_length |].
  split; [now apply render_starts_alnum |].
  split; [now apply render_ends_tld |].
  rewrite <- E. apply List.Forall_forall. intros c Hin.
  destruct (N.le_gt_cases 45 c) as [Hlo | Hlo];
    [destruct (N.le_gt_cases c 124) as [Hhi | Hhi]; [lia |] |].
  - exfalso. revert Hin. eapply ReFacts.excludes_lang.
    + apply ReFacts.fullmatch_lang. exact H.
    + apply email_regex_alphabet. lia.
  - exfalso. revert Hin. eapply ReFacts.excludes_lang.
    + apply ReFacts.fullmatch_lang. exact H.
    + apply email_regex_alphabet. lia.
Qed.

(** X3. An address with a hyphen anywhere before its last [@] is
    rejected by both validators. *)
Theorem is_email_valid_hyphen_local (l d : pystr) :
  In (ord "-") l -> ~ In (ord "@") d ->
  (forall self : RegisterVal.t,
      RegisterVal.email (RegisterVal.user self) = l ++ ord "@" :: d ->
      RegisterVal.is_email_valid self = false)
  /\ (forall login : LoginVal.t,
         LoginVal.email login = l ++ ord "@" :: d ->
         LoginVal.is_email_valid login = false).
Proof.
  intros Hl Hd. split; intros x E.
  - unfold RegisterVal.is_email_valid. rewrite E.
    now apply ReFacts.fullmatch_email_hyphen.
  - unfold LoginVal.is_email_valid. rewrite E.
    now apply ReFacts.fullmatch_email_hyphen.
Qed.

End AddressClaims.

(** ** Login: further properties *)

Section LoginExtras.
Context {Store Rng : Type} `{!UserDB Store, !CryptContext Rng}.
Implicit Types (self : LoginVal.t) (w : World Store Rng).

Lemma query_only_raise {A : Type} (e : exn) :
  query_only (Store := Store) (Rng := Rng) (A := A) (raise e).
Proof. split; intros; [apply untouched_refl | reflexivity]. Qed.

Lemma query_only_if {A : Type} (b : bool) (m1 m2 : M Store Rng A) :
  query_only m1 -> query_only m2 -> query_only (if b then m1 else m2).
Proof. now destruct b. Qed.

Lemma query_only_wrap {A : Type} (m : M Store Rng A) (wrap : exn -> exn) :
  query_only m -> query_only (try_except m (fun e => raise (wrap e))).
Proof.
  intros [H1 H2]. split.
  - intros w. unfold try_except, raise. specialize (H1 w).
    now destruct (m w) as [[a | e] w'].
  - intros w1 w2 E. unfold try_except, raise. specialize (H2 w1 w2 E).
    destruct (m w1) as [[a1 | e1] w1'], (m w2) as [[a2 | e2] w2'];
      simpl in *; congruence.
Qed.

Lemma query_only_log {A : Type} (c : call) (r : outcome A) w :
  is_add (Ev c (raised_by r)) = false -> untouched w (log c r w).
Proof.
  intros Hc. unfold untouched, insertions, log. simpl. repeat split.
  rewrite List.filter_app. simpl. rewrite Hc. apply app_nil_r.
Qed.

Lemma query_only_new : query_only (Rng := Rng) new_UserDB.
Proof.
  split.
  - intros w. now apply query_only_log.
  - intros w1 w2 E. unfold new_UserDB. simpl. now rewrite E.
Qed.

Lemma query_only_verify (p h : pystr) :
  query_only (Store := Store) (call_verify p h).
Proof.
  split.
  - intros w. now apply query_only_log.
  - reflexivity.
Qed.

Lemma query_only_auth_user self : query_only (LoginVal.auth_user self).
Proof.
  unfold LoginVal.auth_user, LoginVal.verify_pwd.
  apply query_only_wrap. cbv zeta.
  apply query_only_if; [| apply query_only_ret].
  apply query_only_bind; [apply query_only_new | intros _].
  apply query_only_bind; [apply query_only_fetch | intros [d |]];
    [| apply query_only_ret].
  apply query_only_if; [apply query_only_ret |].
  apply query_only_bind.
  - unfold subscript. destruct (d !! "password");
      [apply query_only_ret | apply query_only_raise].
  - intros hashed.
    apply query_only_bind; [apply query_only_verify | intros ok].
    apply query_only_if; apply query_only_ret.
Qed.

Lemma auth_user_new_fails self w e :
  LoginVal.validate self = [] ->
  UserDB_new (db w) = Raise e ->
  LoginVal.auth_user self w
  = (Raise (AppException e),
     MkWorld (db w) (entropy w) (calls w ++ [Ev CallNew (Some e)])).
Proof.
  intros Hv Hnew.
  unfold LoginVal.auth_user, try_except, LoginVal.validate_login.
  rewrite Hv. cbn [truthy_list status].
  unfold bind, new_UserDB. rewrite Hnew. reflexivity.
Qed.

Lemma auth_user_fetch_fails self w e :
  LoginVal.validate self = [] ->
  UserDB_new (db w) = Return tt ->
  fetch_user {[ "email" := LoginVal.email self ]} (db w) = Raise e ->
  LoginVal.auth_user self w
  = (Raise (AppException e),
     MkWorld (db w) (entropy w)
             (calls w ++ [Ev CallNew None;
                          Ev (CallFetch {[ "email" := LoginVal.email self ]}) (Some e)])).
Proof.
  intros Hv Hnew Hfetch.
  unfold LoginVal.auth_user, try_except, LoginVal.validate_login.
  rewrite Hv. cbn [truthy_list status].
  unfold bind, new_UserDB, call_fetch_user. cbn [db log].
  rewrite Hnew. cbn [db log raised_by]. rewrite Hfetch.
  unfold raise, log. cbn. now rewrite <- app_assoc.
Qed.

(** X4. [validate_login] reports status true exactly when the email and
    the password are non-empty and the email matches the pattern; the
    dictionary then has no ["msg"] entry, and otherwise its ["msg"] is
    the non-empty list of messages of [validate]. *)
Theorem validate_login_status self :
  (status (LoginVal.validate_login self) = true
   <-> LoginVal.email self <> [] /\ LoginVal.pwd self <> []
       /\ LoginVal.is_email_valid self = true)
  /\ (status (LoginVal.validate_login self) = true ->
      msg (LoginVal.validate_login self) = None)
  /\ (status (LoginVal.validate_login self) = false ->
      LoginVal.validate self <> []
      /\ msg (LoginVal.validate_login self)
         = Some (MsgList (LoginVal.validate self))).
Proof.
  rewrite <- login_validate_nil. unfold LoginVal.validate_login.
  destruct (LoginVal.validate self) as [| m errors]; simpl.
  - repeat split; discriminate.
  - repeat split; discriminate.
Qed.

(** X5. Each message of [LoginVal.validate] is reported exactly when its
    check fails, and the messages come in the order email required,
    password required, invalid email. *)
Theorem login_validate_messages self :
  (In (str "Email is required") (LoginVal.validate self)
   <-> LoginVal.email self = [])
  /\ (In (str "Password is required") (LoginVal.validate self)
      <-> LoginVal.pwd self = [])
  /\ (In (str "Invalid Email") (LoginVal.validate self)
      <-> LoginVal.is_email_valid self = false)
  /\ sublist (LoginVal.validate self)
             [str "Email is required"; str "Password is required";
              str "Invalid Email"].
Proof.
  unfold LoginVal.validate, append_if.
  destruct (LoginVal.is_email_valid self), (LoginVal.email self),
    (LoginVal.pwd self); cbn [negb truthy_str app In];
    (split; [| split; [| split]]);
    try (split; [intros H | intros H]);
    try discriminate; try reflexivity;
    repeat match goal with
           | H : _ \/ _ |- _ => destruct H as [H | H]
           | H : False |- _ => destruct H
           | H : str _ = str _ |- _ => vm_compute in H; discriminate H
           end;
    try (now left); try (now right; left); try (now right; right; left);
    repeat first [apply sublist_nil | apply sublist_skip; [] | apply sublist_cons];
    repeat first [apply sublist_cons | apply sublist_skip | apply sublist_nil].
Qed.

(** X6. On every path, returning or raising, [auth_user] leaves the
    store contents and the hashing entropy as they were and makes no
    [add_user] call. *)
Theorem auth_user_reads_only self w :
  untouched w (snd (LoginVal.auth_user self w)).
Proof. apply (query_only_auth_user self). Qed.

(** X7. When the record found for the email is non-empty but has no
    ["password"] field, [auth_user] raises [AppException] wrapping the
    [KeyError], and the hasher is not called. *)
Theorem auth_user_missing_password self w d :
  LoginVal.validate self = [] ->
  UserDB_new (db w) = Return tt ->
  fetch_user {[ "email" := LoginVal.email self ]} (db w) = Return (Some d) ->
  d <> ∅ ->
  d !! "password"%string = None ->
  LoginVal.auth_user self w
  = (Raise (AppException (KeyError "password")),
     MkWorld (db w) (entropy w)
             (calls w ++ [Ev CallNew None;
                          Ev (CallFetch {[ "email" := LoginVal.email self ]}) None])).
Proof.
  intros Hv Hnew Hfetch Hd Hpw.
  rewrite (auth_user_lookup self w _ Hv Hnew Hfetch).
  unfold truthy_doc. rewrite bool_decide_eq_false_2 by assumption.
  cbn [negb]. now rewrite Hpw.
Qed.

(** X8. When the lookup by email finds nothing ([None] or an empty
    record), [auth_user] returns [False] after exactly two calls, the
    [UserDB] constructor and the fetch: no password verification is
    attempted for an unknown email. *)
Theorem auth_user_unknown_email self w r :
  LoginVal.validate self = [] ->
  UserDB_new (db w) = Return tt ->
  fetch_user {[ "email" := LoginVal.email self ]} (db w) = Return r ->
  truthy_doc r = false ->
  LoginVal.auth_user self w
  = (Return PyFalse,
     MkWorld (db w) (entropy w)
             (calls w ++ [Ev CallNew None;
                          Ev (CallFetch {[ "email" := LoginVal.email self ]}) None])).
Proof.
  intros Hv Hnew Hfetch Hr.
  rewrite (auth_user_lookup self w _ Hv Hnew Hfetch). now rewrite Hr.
Qed.

(** X9. [auth_user] returns a record only if the input passed
    validation, the store was reachable, that record is what the lookup
    by email returned, and the hasher verified the given password
    against the record's ["password"] field. *)
Theorem auth_user_sound self w d w' :
  LoginVal.auth_user self w = (Return (PyUser d), w') ->
  LoginVal.email self <> [] /\ LoginVal.pwd self <> []
  /\ LoginVal.is_email_valid self = true
  /\ UserDB_new (db w) = Return tt
  /\ fetch_user {[ "email" := LoginVal.email self ]} (db w) = Return (Some d)
  /\ d <> ∅
  /\ exists hashed,
      d !! "password"%string = Some hashed
      /\ verify (LoginVal.pwd self) hashed = Return true
      /\ last (calls w') = Some (Ev (CallVerify (LoginVal.pwd self) hashed) None).
Proof.
  intros H.
  destruct (LoginVal.validate self) as [| m errors] eqn:Hv;
    [| rewrite auth_user_invalid in H by (rewrite Hv; discriminate);
       discriminate].
  apply login_validate_nil in Hv as Hok. destruct Hok as (He & Hp & Hvalid).
  destruct (UserDB_new (db w)) as [[] | e] eqn:Hnew;
    [| rewrite (auth_user_new_fails self w e Hv Hnew) in H; discriminate].
  destruct (fetch_user {[ "email" := LoginVal.email self ]} (db w))
    as [r | e] eqn:Hfetch;
    [| rewrite (auth_user_fetch_fails self w e Hv Hnew Hfetch) in H;
       discriminate].
  rewrite (auth_user_lookup self w r Hv Hnew Hfetch) in H.
  destruct (truthy_doc r) eqn:Ht; [| discriminate].
  destruct r as [d0 |]; [| discriminate].
  destruct (d0 !! "password"%string) as [hashed |] eqn:Hpw; [| discriminate].
  destruct (verify (LoginVal.pwd self) hashed) as [[|] | e] eqn:Hver;
    try discriminate.
  injection H as -> <-.
  repeat split; try assumption.
  - intros ->. unfold truthy_doc in Ht.
    rewrite bool_decide_eq_true_2 in Ht by reflexivity. discriminate.
  - exists hashed. repeat split; try assumption.
    unfold log. cbn [calls raised_by]. now rewrite last_snoc.
Qed.

(** X10. When the [UserDB] constructor raises, [auth_user] raises
    [AppException] around that exception without issuing the fetch;
    when the fetch raises, it does so without calling the hasher. *)
Theorem auth_user_store_failure self w e :
  LoginVal.validate self = [] ->
  (UserDB_new (db w) = Raise e ->
   LoginVal.auth_user self w
   = (Raise (AppException e),
      MkWorld (db w) (entropy w) (calls w ++ [Ev CallNew (Some e)])))
  /\ (UserDB_new (db w) = Return tt ->
      fetch_user {[ "email" := LoginVal.email self ]} (db w) = Raise e ->
      LoginVal.auth_user self w
      = (Raise (AppException e),
         MkWorld (db w) (entropy w)
                 (calls w ++ [Ev CallNew None;
                              Ev (CallFetch {[ "email" := LoginVal.email self ]})
                                 (Some e)]))).
Proof.
  intros Hv. split.
  - now apply auth_user_new_fails.
  - now apply auth_user_fetch_fails.
Qed.

End LoginExtras.

(** ** Registration: further properties *)

Section RegisterExtras.
Context {Store Rng : Type} `{!UserDB Store, !CryptContext Rng}.
Implicit Types (self : RegisterVal.t) (w : World Store Rng).

Lemma failure_messages_nil_iff (checks : list (bool * string)) :
  failure_messages checks = [] <-> forallb fst checks = true.
Proof.
  unfold failure_messages.
  induction checks as [| [b m] checks IH]; simpl; [tauto |].
  destruct b; simpl; [exact IH |]. split; discriminate.
Qed.

Lemma truthy_str_true (s : pystr) : truthy_str s = true <-> s <> [].
Proof. destruct s; simpl; split; congruence. Qed.

Lemma validate_raises self w e w1 :
  RegisterVal.validate self w = (Raise e, w1) ->
  RegisterVal.save_user self w = (Raise e, w1).
Proof.
  intros Hv. unfold RegisterVal.save_user. rewrite try_except_reraise.
  unfold bind at 1. unfold RegisterVal.validate_reg. unfold bind at 1.
  now rewrite Hv.
Qed.

(** What [save_user] does once validation has returned no message. *)
Lemma save_user_validated self w w1 :
  RegisterVal.validate self w = (Return [], w1) ->
  RegisterVal.save_user self w
  = let pwd := RegisterVal.pass1 (RegisterVal.user self) in
    let queried := calls w ++ fetched (uniqueness_queries self) in
    match hash pwd (entropy w) with
    | (Raise e, g) =>
        (Raise e, MkWorld (db w) g (queried ++ [Ev (CallHash pwd) (Some e)]))
    | (Return hashed, g) =>
        let doc := persisted_record self hashed in
        match add_user doc (db w) with
        | (Return _, st) =>
            (Return (StatusDict true
                       (Some (MsgStr (str "User registered successfully")))),
             MkWorld st g (queried ++ [Ev (CallHash pwd) None;
                                       Ev (CallAdd doc) None]))
        | (Raise e, st) =>
            (Raise e,
             MkWorld st g (queried ++ [Ev (CallHash pwd) None;
                                       Ev (CallAdd doc) (Some e)]))
        end
    end.
Proof.
  intros Hv. destruct (validate_again self w [] w1 Hv) as [_ ->].
  unfold RegisterVal.save_user. rewrite try_except_reraise.
  unfold bind at 1. unfold RegisterVal.validate_reg. unfold bind at 1.
  rewrite Hv. cbn [truthy_list]. unfold ret at 1. cbn [status].
  unfold bind, RegisterVal.hash_pwd, call_hash. cbn [db entropy calls].
  cbv zeta.
  destruct (hash (RegisterVal.pass1 (RegisterVal.user self)) (entropy w))
    as [[hashed | e] g]; [| reflexivity].
  unfold call_add_user. cbn [db entropy calls raised_by].
  fold (persisted_record self hashed).
  destruct (add_user (persisted_record self hashed) (db w)) as [[[] | e] st];
    cbn [raised_by]; unfold ret; now rewrite <- !app_assoc.
Qed.

(** X11. [is_user_exists] issues its three queries, by username, by
    email and by identifier in this order, whatever the earlier ones
    return, and answers [True] exactly when none of them finds a
    document (so [True] means that the candidate is new). *)
Theorem is_user_exists_verdict self w a b c :
  fetch_user {[ "username" := RegisterVal.username (RegisterVal.user self) ]} (db w)
    = Return a ->
  fetch_user {[ "email" := RegisterVal.email (RegisterVal.user self) ]} (db w)
    = Return b ->
  fetch_user {[ "UUID" := RegisterVal.uuid self ]} (db w) = Return c ->
  exists free,
    RegisterVal.is_user_exists self w
    = (Return free,
       MkWorld (db w) (entropy w)
               (calls w ++ fetched (uniqueness_queries self)))
    /\ (free = true
        <-> truthy_doc a = false /\ truthy_doc b = false /\ truthy_doc c = false).
Proof.
  intros Ha Hb Hc. eexists. split.
  - exact (is_user_exists_returns self w a b c Ha Hb Hc).
  - rewrite negb_true_iff, !orb_false_iff. tauto.
Qed.

(** X12. A query that raises ends the registration at once: when the
    query by username raises, [is_user_exists], [validate] and
    [save_user] all raise that exception after this single call, and the
    messages of the checks made before it are lost; when it returns and
    the query by email raises, the same holds after two calls. *)
Theorem uniqueness_query_failure self w e :
  (fetch_user {[ "username" := RegisterVal.username (RegisterVal.user self) ]} (db w)
   = Raise e ->
   let w' :=
     MkWorld (db w) (entropy w)
             (calls w ++ [Ev (CallFetch {[ "username" :=
                            RegisterVal.username (RegisterVal.user self) ]}) (Some e)]) in
   RegisterVal.is_user_exists self w = (Raise e, w')
   /\ RegisterVal.validate self w = (Raise e, w')
   /\ RegisterVal.save_user self w = (Raise e, w'))
  /\ (forall a,
         fetch_user {[ "username" := RegisterVal.username (RegisterVal.user self) ]} (db w)
         = Return a ->
         fetch_user {[ "email" := RegisterVal.email (RegisterVal.user self) ]} (db w)
         = Raise e ->
         let w' :=
           MkWorld (db w) (entropy w)
                   (calls w
                      ++ [Ev (CallFetch {[ "username" :=
                                RegisterVal.username (RegisterVal.user self) ]}) None;
                          Ev (CallFetch {[ "email" :=
                                RegisterVal.email (RegisterVal.user self) ]}) (Some e)]) in
         RegisterVal.is_user_exists self w = (Raise e, w')
         /\ RegisterVal.validate self w = (Raise e, w')
         /\ RegisterVal.save_user self w = (Raise e, w')).
Proof.
  split.
  - intros Ha w'.
    assert (Hex : RegisterVal.is_user_exists self w = (Raise e, w')).
    { unfold RegisterVal.is_user_exists, bind, call_fetch_user.
      cbn [db]. now rewrite Ha. }
    assert (Hv : RegisterVal.validate self w = (Raise e, w'))
      by (rewrite validate_unfold; now rewrite Hex).
    repeat split; try assumption. now apply validate_raises.
  - intros a Ha Hb w'.
    assert (Hex : RegisterVal.is_user_exists self w = (Raise e, w')).
    { unfold RegisterVal.is_user_exists, bind, call_fetch_user.
      cbn [db]. rewrite Ha. cbn [db log]. rewrite Hb.
      unfold w', log. cbn. now rewrite <- app_assoc. }
    assert (Hv : RegisterVal.validate self w = (Raise e, w'))
      by (rewrite validate_unfold; now rewrite Hex).
    repeat split; try assumption. now apply validate_raises.
Qed.

(** X13. Provided the three uniqueness queries return, [validate]
    returns no message exactly when the name, the username and the phone
    are non-empty, the email matches the pattern, [pass1] has 8 to 16
    characters and equals [pass2], and no query finds a document; the
    presence checks on email, [pass1] and [pass2] then hold by
    themselves. *)
Theorem registration_accepts_iff self w a b c :
  fetch_user {[ "username" := RegisterVal.username (RegisterVal.user self) ]} (db w)
    = Return a ->
  fetch_user {[ "email" := RegisterVal.email (RegisterVal.user self) ]} (db w)
    = Return b ->
  fetch_user {[ "UUID" := RegisterVal.uuid self ]} (db w) = Return c ->
  fst (RegisterVal.validate self w) = Return []
  <-> RegisterVal.name (RegisterVal.user self) <> []
      /\ RegisterVal.username (RegisterVal.user self) <> []
      /\ RegisterVal.phone (RegisterVal.user self) <> []
      /\ RegisterVal.is_email_valid self = true
      /\ (8 <= length (RegisterVal.pass1 (RegisterVal.user self)) <= 16)%nat
      /\ RegisterVal.pass1 (RegisterVal.user self)
         = RegisterVal.pass2 (RegisterVal.user self)
      /\ truthy_doc a = false /\ truthy_doc b = false /\ truthy_doc c = false.
Proof.
  intros Ha Hb Hc.
  rewrite validate_unfold, (is_user_exists_returns self w a b c Ha Hb Hc).
  cbn [fst].
  assert (forall l : list pystr, Return l = Return [] <-> l = []) as ->
    by (intros l; split; congruence).
  rewrite failure_messages_nil_iff. unfold registration_checks.
  cbn [forallb fst]. rewrite !andb_true_iff, !truthy_str_true.
  rewrite negb_true_iff, !orb_false_iff.
  unfold RegisterVal.is_pwd_valid, RegisterVal.is_pwd_match, str_eqb.
  rewrite andb_true_iff, !Nat.leb_le, bool_decide_eq_true.
  split.
  - intros (Hn & Hu & He & Hph & Hp1 & Hp2 & Hvalid & Hlen & Hm & Hfree & _).
    tauto.
  - intros (Hn & Hu & Hph & Hvalid & Hlen & Hm & Hfa & Hfb & Hfc).
    assert (RegisterVal.pass1 (RegisterVal.user self) <> []) as Hp1
      by (intros E; rewrite E in Hlen; simpl in Hlen; lia).
    assert (RegisterVal.email (RegisterVal.user self) <> []) as He.
    { intros E. unfold RegisterVal.is_email_valid in Hvalid.
      rewrite E in Hvalid. discriminate. }
    repeat split; try assumption; try tauto. now rewrite <- Hm.
Qed.

(** X14. In registration an empty field fails two checks at once: an
    empty email is reported as required and as invalid, an empty [pass1]
    as required and as too short, and an empty [pass2] next to a
    non-empty [pass1] as required and as not matching. *)
Theorem registration_empty_fields self w errors w1 :
  RegisterVal.validate self w = (Return errors, w1) ->
  (RegisterVal.email (RegisterVal.user self) = [] ->
   In (str "Email is required") errors /\ In (str "Invalid Email") errors)
  /\ (RegisterVal.pass1 (RegisterVal.user self) = [] ->
      In (str "Password is required") errors
      /\ In (str "Password must be 8-16 characters long") errors)
  /\ (RegisterVal.pass2 (RegisterVal.user self) = [] ->
      RegisterVal.pass1 (RegisterVal.user self) <> [] ->
      In (str "Confirm Password is required") errors
      /\ In (str "Passwords do not match") errors).
Proof.
  rewrite validate_unfold.
  destruct (RegisterVal.is_user_exists self w) as [[free | e] w0];
    [| discriminate].
  intros H. injection H as <- _.
  split; [| split].
  - intros E. split; apply failure_messages_in; unfold registration_checks,
      RegisterVal.is_email_valid; rewrite E; simpl; tauto.
  - intros E. split; apply failure_messages_in; unfold registration_checks,
      RegisterVal.is_pwd_valid; rewrite E; simpl; tauto.
  - intros E Hne. split; apply failure_messages_in; unfold registration_checks,
      RegisterVal.is_pwd_match, str_eqb; rewrite E.
    + simpl. tauto.
    + rewrite bool_decide_eq_false_2 by assumption. simpl. tauto.
Qed.

End RegisterExtras.

(** ** Registration: what [save_user] does to the store *)

Section SaveUserExtras.
Context {Store Rng : Type} `{!UserDB Store, !CryptContext Rng}.
Implicit Types (self : RegisterVal.t) (w : World Store Rng).

Lemma persisted_record_username self hashed :
  persisted_record self hashed !! "username"%string
  = Some (RegisterVal.username (RegisterVal.user self)).
Proof.
  unfold persisted_record. simpl.
  rewrite lookup_insert_ne by discriminate.
  apply lookup_insert_eq.
Qed.

Lemma persisted_record_uuid self hashed :
  persisted_record self hashed !! "UUID"%string = Some (RegisterVal.uuid self).
Proof.
  unfold persisted_record. simpl.
  do 5 (rewrite lookup_insert_ne by discriminate).
  apply lookup_insert_eq.
Qed.

Lemma insertions_snoc w (l : list event) (ev : event) :
  List.filter is_add (l ++ [ev])
  = List.filter is_add l ++ (if is_add ev then [ev] else []).
Proof. rewrite List.filter_app. simpl. now destruct (is_add ev). Qed.

Lemma insertions_registered w (l : list event) (qs : list Doc)
      (p : pystr) (doc : Doc) (r : option exn) :
  List.filter is_add (l ++ fetched qs ++ [Ev (CallHash p) None; Ev (CallAdd doc) r])
  = List.filter is_add l ++ [Ev (CallAdd doc) r].
Proof.
  now rewrite app_assoc, List.filter_app, (insertions_fetched w).
Qed.

Lemma registration_messages_distinct : NoDup registration_messages.
Proof.
  apply NoDup_ListNoDup, (List.NoDup_count_occ list_eq_dec).
  intros x. unfold registration_messages.
  cbn [List.map count_occ].
  repeat match goal with
         | |- context [list_eq_dec ?a x] =>
             destruct (list_eq_dec a x) as [<- | ?]
         end; vm_compute; lia.
Qed.

(** X15. The list returned by [validate] has no message twice, and at
    most ten messages. *)
Theorem validate_messages_distinct self w errors w1 :
  RegisterVal.validate self w = (Return errors, w1) ->
  NoDup errors /\ (length errors <= 10)%nat.
Proof.
  rewrite validate_unfold.
  destruct (RegisterVal.is_user_exists self w) as [[free | e] w0];
    [| discriminate].
  intros H. injection H as <- _.
  pose proof (failure_messages_sublist (registration_checks self free)) as Hs.
  change (List.map (fun c => str (snd c)) (registration_checks self free))
    with registration_messages in Hs.
  split.
  - eapply sublist_NoDup; [exact registration_messages_distinct | exact Hs].
  - apply sublist_length in Hs. exact Hs.
Qed.

(** X16. When validation returns no message, the hasher returns a
    digest and the store accepts the record, [save_user] returns status
    true with ["User registered successfully"]; the store is the one
    [add_user] produced from the record carrying the digest, and the
    calls made are the three queries, the hash and the insertion, in
    this order. *)
Theorem save_user_succeeds self w w1 hashed g st :
  RegisterVal.validate self w = (Return [], w1) ->
  hash (RegisterVal.pass1 (RegisterVal.user self)) (entropy w) = (Return hashed, g) ->
  add_user (persisted_record self hashed) (db w) = (Return tt, st) ->
  RegisterVal.save_user self w
  = (Return (StatusDict true (Some (MsgStr (str "User registered successfully")))),
     MkWorld st g
             (calls w ++ fetched (uniqueness_queries self)
                ++ [Ev (CallHash (RegisterVal.pass1 (RegisterVal.user self))) None;
                    Ev (CallAdd (persisted_record self hashed)) None])).
Proof.
  intros Hv Hh Hadd. rewrite (save_user_validated self w w1 Hv).
  cbv zeta. rewrite Hh, Hadd. now rewrite <- app_assoc.
Qed.

(** X17. After a clean validation, a hasher that raises makes
    [save_user] raise that exception without calling [add_user] and
    with the store unchanged; and when [add_user] raises, [save_user]
    raises that exception and reports no status. *)
Theorem save_user_late_failure self w w1 e :
  RegisterVal.validate self w = (Return [], w1) ->
  (forall g,
      hash (RegisterVal.pass1 (RegisterVal.user self)) (entropy w) = (Raise e, g) ->
      exists w',
        RegisterVal.save_user self w = (Raise e, w')
        /\ db w' = db w /\ insertions w' = insertions w)
  /\ (forall hashed g st,
         hash (RegisterVal.pass1 (RegisterVal.user self)) (entropy w)
         = (Return hashed, g) ->
         add_user (persisted_record self hashed) (db w) = (Raise e, st) ->
         exists w',
           RegisterVal.save_user self w = (Raise e, w')
           /\ db w' = st
           /\ last (calls w')
              = Some (Ev (CallAdd (persisted_record self hashed)) (Some e))).
Proof.
  intros Hv. split.
  - intros g Hh. rewrite (save_user_validated self w w1 Hv). cbv zeta.
    rewrite Hh. eexists. split; [reflexivity |]. split; [reflexivity |].
    unfold insertions. cbn [calls].
    now rewrite insertions_snoc, (insertions_fetched w), app_nil_r.
  - intros hashed g st Hh Hadd. rewrite (save_user_validated self w w1 Hv).
    cbv zeta. rewrite Hh, Hadd. eexists. split; [reflexivity |].
    split; [reflexivity |]. cbn [calls].
    change [Ev (CallHash (RegisterVal.pass1 (RegisterVal.user self))) None;
            Ev (CallAdd (persisted_record self hashed)) (Some e)]
      with ([Ev (CallHash (RegisterVal.pass1 (RegisterVal.user self))) None]
              ++ [Ev (CallAdd (persisted_record self hashed)) (Some e)]).
    now rewrite app_assoc, last_snoc.
Qed.

(** X18. On every path [save_user] calls [add_user] at most once.  It
    does so only after a validation that returned no message and a hash
    that returned a digest, and then with the record carrying that
    digest; on every other path, returning or raising, the store is
    left as it was. *)
Theorem save_user_inserts_at_most_once self w :
  let w' := snd (RegisterVal.save_user self w) in
  (insertions w' = insertions w /\ db w' = db w)
  \/ (fst (RegisterVal.validate self w) = Return []
      /\ exists hashed g r,
          hash (RegisterVal.pass1 (RegisterVal.user self)) (entropy w)
          = (Return hashed, g)
          /\ insertions w'
             = insertions w ++ [Ev (CallAdd (persisted_record self hashed)) r]
          /\ db w' = snd (add_user (persisted_record self hashed) (db w))).
Proof.
  intros w'. subst w'.
  destruct (RegisterVal.validate self w) as [[[| m errors] | e] w1] eqn:Hv.
  - rewrite (save_user_validated self w w1 Hv). cbv zeta.
    destruct (hash (RegisterVal.pass1 (RegisterVal.user self)) (entropy w))
      as [[hashed | e] g] eqn:Hh.
    + right. split; [reflexivity |]. exists hashed, g.
      destruct (add_user (persisted_record self hashed) (db w))
        as [[[] | e] st] eqn:Hadd.
      * exists None. split; [reflexivity |]. split; [| reflexivity].
        unfold insertions. cbn [snd calls].
        rewrite <- app_assoc. apply (insertions_registered w).
      * exists (Some e). split; [reflexivity |]. split; [| reflexivity].
        unfold insertions. cbn [snd calls].
        rewrite <- app_assoc. apply (insertions_registered w).
    + left. cbn [snd]. split; [| reflexivity].
      unfold insertions. cbn [calls].
      now rewrite insertions_snoc, (insertions_fetched w), app_nil_r.
  - left. rewrite (save_user_rejected self w (m :: errors) w1 Hv) by discriminate.
    cbn [snd].
    destruct (untouched_fetched w (uniqueness_queries self) (uniqueness_queries self))
      as (Hdb & _ & Hins).
    now split.
  - left. rewrite (validate_raises self w e w1 Hv). cbn [snd].
    destruct (query_only_validate (Rng := Rng) self) as [Hfr _].
    specialize (Hfr w). rewrite Hv in Hfr. destruct Hfr as (Hdb & _ & Hins).
    now split.
Qed.

(** X21. [save_user] reports status true only if validation returned
    no message and [add_user] returned for the record carrying the
    digest of [pass1]: that insertion is the only one it logged, and
    the message is ["User registered successfully"]. *)
Theorem save_user_success_sound self w message w1 :
  RegisterVal.save_user self w = (Return (StatusDict true message), w1) ->
  fst (RegisterVal.validate self w) = Return []
  /\ message = Some (MsgStr (str "User registered successfully"))
  /\ exists hashed,
      fst (hash (RegisterVal.pass1 (RegisterVal.user self)) (entropy w))
      = Return hashed
      /\ add_user (persisted_record self hashed) (db w) = (Return tt, db w1)
      /\ insertions w1
         = insertions w ++ [Ev (CallAdd (persisted_record self hashed)) None].
Proof.
  intros H.
  apply save_user_accepted in H
    as (a & b & c & hashed & g & Ha & Hb & Hc & Hnil & Hh & Hadd & _ & Hcalls & Hm).
  split; [| split; [exact Hm |]].
  - rewrite validate_unfold, (is_user_exists_returns self w a b c Ha Hb Hc).
    cbn [fst]. now rewrite Hnil.
  - exists hashed. rewrite Hh. split; [reflexivity |]. split; [exact Hadd |].
    unfold insertions. rewrite Hcalls.
    apply (insertions_registered w).
Qed.

(** X22. [save_user] reports status false only together with a
    non-empty message list, which is the one validation returned, and
    then nothing was hashed or inserted and the store is unchanged. *)
Theorem save_user_failure_sound self w message w1 :
  RegisterVal.save_user self w = (Return (StatusDict false message), w1) ->
  exists errors,
    message = Some (MsgList errors)
    /\ errors <> []
    /\ fst (RegisterVal.validate self w) = Return errors
    /\ untouched w w1.
Proof.
  intros H.
  destruct (RegisterVal.validate self w) as [[[| m errors] | e] wv] eqn:Hv.
  - rewrite (save_user_validated self w wv Hv) in H. cbv zeta in H.
    destruct (hash (RegisterVal.pass1 (RegisterVal.user self)) (entropy w))
      as [[hashed | e] g]; [| discriminate].
    destruct (add_user (persisted_record self hashed) (db w)) as [[[] | e] st];
      discriminate.
  - rewrite (save_user_rejected self w (m :: errors) wv Hv) in H by discriminate.
    injection H as <- <-. exists (m :: errors).
    split; [reflexivity |]. split; [discriminate |].
    split; [reflexivity |].
    exact (untouched_fetched w (uniqueness_queries self) (uniqueness_queries self)).
  - rewrite (validate_raises self w e wv Hv) in H. discriminate.
Qed.

End SaveUserExtras.

(** ** Registering the same candidate again *)

Section RegisterAgain.
Context {Store Rng : Type} `{!UserDB Store, !CryptContext Rng}.
Implicit Types (self : RegisterVal.t) (w : World Store Rng).

(** The messages when every check but the uniqueness check passes. *)
Lemma failure_messages_taken self :
  failure_messages (registration_checks self true) = [] ->
  failure_messages (registration_checks self false) = [str "User already exists"].
Proof.
  rewrite failure_messages_nil_iff. unfold registration_checks.
  cbn [forallb fst]. rewrite !andb_true_iff.
  intros (H1 & H2 & H3 & H4 & H5 & H6 & H7 & H8 & H9 & _).
  unfold failure_messages. cbn [List.filter fst].
  now rewrite H1, H2, H3, H4, H5, H6, H7, H8, H9.
Qed.

(** X19. On a store that returns what was added to it, registering a
    candidate that has just been registered fails with the single
    message ["User already exists"] and inserts nothing. *)
Theorem register_twice `{!UserDBLaws Store} self w message w1 w2 :
  RegisterVal.save_user self w = (Return (StatusDict true message), w1) ->
  db w2 = db w1 ->
  exists w3,
    RegisterVal.save_user self w2
    = (Return (StatusDict false (Some (MsgList [str "User already exists"]))), w3)
    /\ untouched w2 w3.
Proof.
  intros H Hdb.
  apply save_user_accepted in H
    as (a & b & c & hashed & g & Ha & Hb & Hc & Hnil & _ & Hadd & _).
  assert (Hfree : negb (truthy_doc a || truthy_doc b || truthy_doc c) = true)
    by (apply (failure_messages_nil _ _ "User already exists" Hnil);
        unfold registration_checks; simpl; tauto).
  rewrite Hfree in Hnil.
  apply negb_true_iff in Hfree. apply orb_false_iff in Hfree as [Hab Hfc].
  apply orb_false_iff in Hab as [Hfa Hfb].
  set (doc := persisted_record self hashed) in *.
  assert (Ha2 : fetch_user {[ "username" :=
                    RegisterVal.username (RegisterVal.user self) ]} (db w2)
                = Return (Some doc))
    by (rewrite Hdb;
        exact (fetch_after_add _ _ _ _ _ a Ha Hfa
                 (persisted_record_username self hashed) Hadd)).
  assert (Hb2 : fetch_user {[ "email" :=
                    RegisterVal.email (RegisterVal.user self) ]} (db w2)
                = Return (Some doc))
    by (rewrite Hdb;
        exact (fetch_after_add _ _ _ _ _ b Hb Hfb
                 (persisted_record_email self hashed) Hadd)).
  assert (Hc2 : fetch_user {[ "UUID" := RegisterVal.uuid self ]} (db w2)
                = Return (Some doc))
    by (rewrite Hdb;
        exact (fetch_after_add _ _ _ _ _ c Hc Hfc
                 (persisted_record_uuid self hashed) Hadd)).
  pose proof (validate_unfold self w2) as Hv.
  rewrite (is_user_exists_returns self w2 _ _ _ Ha2 Hb2 Hc2) in Hv.
  unfold doc in Hv. rewrite (persisted_record_truthy self hashed) in Hv.
  cbn [orb negb] in Hv. rewrite (failure_messages_taken self Hnil) in Hv.
  eexists. split.
  - eapply save_user_rejected; [exact Hv | discriminate].
  - apply untouched_fetched.
Qed.

(** X20. Building a [RegisterVal] makes one call, the [UserDB]
    constructor.  When it returns, the validator holds the candidate and
    the candidate's own identifier; when it raises, the exception leaves
    [__init__] as it is, whereas [auth_user] on a valid input raises the
    same failure wrapped in [AppException]. *)
Theorem register_init (u : RegisterVal.User) w :
  (UserDB_new (db w) = Return tt ->
   RegisterVal.init u w
   = (Return (RegisterVal.Build u (RegisterVal.uid u)),
      MkWorld (db w) (entropy w) (calls w ++ [Ev CallNew None])))
  /\ (forall e,
         UserDB_new (db w) = Raise e ->
         let w' := MkWorld (db w) (entropy w) (calls w ++ [Ev CallNew (Some e)]) in
         RegisterVal.init u w = (Raise e, w')
         /\ forall login,
             LoginVal.validate login = [] ->
             LoginVal.auth_user login w = (Raise (AppException e), w')).
Proof.
  split.
  - intros Hnew. unfold RegisterVal.init. rewrite try_except_reraise.
    unfold bind, new_UserDB. now rewrite Hnew.
  - intros e Hnew w'. split.
    + unfold RegisterVal.init. rewrite try_except_reraise.
      unfold bind, new_UserDB. now rewrite Hnew.
    + intros login Hv. now apply auth_user_new_fails.
Qed.

End RegisterAgain.

(** ** The further properties at the sample inputs *)

Import MoreSamples.

Lemma is_email_valid_grammar_witness :
  Address.parses (RegisterVal.email (RegisterVal.user (with_email "a@b.com")))
  /\ LoginVal.is_email_valid
       (LoginVal.Build (Address.render dotted) (str "password1")) = true.
Proof.
  split.
  - refine (proj1 (proj1 is_email_valid_grammar (with_email "a@b.com")) _).
    vm_compute. reflexivity.
  - refine (proj2 (proj2 is_email_valid_grammar
                     (LoginVal.Build (Address.render dotted) (str "password1"))) _).
    exists dotted. split; [vm_compute |]; reflexivity.
Defined.

Lemma is_email_valid_necessary_witness :
  let s := RegisterVal.email (RegisterVal.user (with_email "a@b.com")) in
  In (ord "@") s
  /\ (6 <= length s)%nat
  /\ (exists c s', s = c :: s' /\ Re.in_set Re.alnum c = true)
  /\ (exists pre l,
         s = pre ++ ord "." :: l
         /\ (2 <= length l)%nat /\ Address.all_in Address.tld_set l = true)
  /\ Forall (fun c => (45 <= c <= 124)%N) s.
Proof.
  refine (is_email_valid_necessary (with_email "a@b.com") _).
  vm_compute. reflexivity.
Defined.

Lemma is_email_valid_hyphen_local_witness :
  RegisterVal.is_email_valid (with_email "a-b@c.com") = false
  /\ LoginVal.is_email_valid (LoginVal.Build (str "a-b@c.com") (str "password1"))
     = false.
Proof.
  assert (Hl : In (ord "-") (str "a-b")) by (vm_compute; tauto).
  assert (Hd : ~ In (ord "@") (str "c.com")).
  { vm_compute. intros H.
    repeat match goal with
           | H : _ \/ _ |- _ => destruct H as [H | H]
           | H : _ = _ |- _ => discriminate H
           | H : False |- _ => destruct H
           end. }
  split.
  - exact (proj1 (is_email_valid_hyphen_local (str "a-b") (str "c.com") Hl Hd)
                 (with_email "a-b@c.com") eq_refl).
  - exact (proj2 (is_email_valid_hyphen_local (str "a-b") (str "c.com") Hl Hd)
                 (LoginVal.Build (str "a-b@c.com") (str "password1")) eq_refl).
Defined.

Lemma validate_login_status_witness :
  (LoginVal.email alice_login <> [] /\ LoginVal.pwd alice_login <> []
   /\ LoginVal.is_email_valid alice_login = true)
  /\ msg (LoginVal.validate_login alice_login) = None
  /\ (LoginVal.validate (LoginVal.Build [] []) <> []
      /\ msg (LoginVal.validate_login (LoginVal.Build [] []))
         = Some (MsgList (LoginVal.validate (LoginVal.Build [] [])))).
Proof.
  split; [| split].
  - refine (proj1 (proj1 (validate_login_status alice_login)) _).
    vm_compute. reflexivity.
  - refine (proj1 (proj2 (validate_login_status alice_login)) _).
    vm_compute. reflexivity.
  - refine (proj2 (proj2 (validate_login_status (LoginVal.Build [] []))) _).
    vm_compute. reflexivity.
Defined.

Lemma login_validate_messages_witness :
  In (str "Email is required") (LoginVal.validate (LoginVal.Build [] (str "x")))
  /\ LoginVal.pwd alice_login <> []
  /\ In (str "Invalid Email") (LoginVal.validate (LoginVal.Build [] (str "x"))).
Proof.
  split; [| split].
  - exact (proj2 (proj1 (login_validate_messages (LoginVal.Build [] (str "x"))))
                 eq_refl).
  - intros E.
    pose proof (proj2 (proj1 (proj2 (login_validate_messages alice_login))) E) as H.
    vm_compute in H.
    repeat match goal with
           | H : _ \/ _ |- _ => destruct H as [H | H]
           | H : _ = _ |- _ => discriminate H
           | H : False |- _ => destruct H
           end.
  - refine (proj2 (proj1 (proj2 (proj2
              (login_validate_messages (LoginVal.Build [] (str "x"))))))  _).
    vm_compute. reflexivity.
Defined.

Lemma auth_user_missing_password_witness :
  fst (LoginVal.auth_user alice_login headless_world)
  = Raise (AppException (KeyError "password")).
Proof.
  refine (f_equal fst
            (auth_user_missing_password alice_login headless_world
               {[ "email" := str "a@b.com" ]} _ _ _ _ _)).
  - vm_compute. reflexivity.
  - vm_compute. reflexivity.
  - vm_compute. reflexivity.
  - intros E. apply (f_equal (fun d : Doc => d !! "email"%string)) in E.
    vm_compute in E. discriminate.
  - vm_compute. reflexivity.
Defined.

Lemma auth_user_unknown_email_witness :
  LoginVal.auth_user alice_login empty_world
  = (Return PyFalse,
     MkWorld (db empty_world) (entropy empty_world)
             (calls empty_world
                ++ [Ev CallNew None;
                    Ev (CallFetch {[ "email" := LoginVal.email alice_login ]}) None])).
Proof.
  refine (auth_user_unknown_email alice_login empty_world None _ _ _ _);
    vm_compute; reflexivity.
Defined.

Lemma auth_user_sound_witness :
  LoginVal.email alice_login <> [] /\ LoginVal.pwd alice_login <> []
  /\ LoginVal.is_email_valid alice_login = true
  /\ UserDB_new (db registered_world) = Return tt
  /\ fetch_user {[ "email" := LoginVal.email alice_login ]} (db registered_world)
     = Return (Some alice_record)
  /\ alice_record <> ∅
  /\ exists hashed,
      alice_record !! "password"%string = Some hashed
      /\ verify (LoginVal.pwd alice_login) hashed = Return true
      /\ last (calls (snd (LoginVal.auth_user alice_login registered_world)))
         = Some (Ev (CallVerify (LoginVal.pwd alice_login) hashed) None).
Proof.
  refine (auth_user_sound alice_login registered_world alice_record
            (snd (LoginVal.auth_user alice_login registered_world)) _).
  vm_compute. reflexivity.
Defined.

Lemma auth_user_store_failure_witness :
  fst (LoginVal.auth_user alice_login offline_world)
  = Raise (AppException MemStore.unreachable)
  /\ fst (LoginVal.auth_user alice_login broken_email_world)
     = Raise (AppException ReadOnlyStore.query_failed).
Proof.
  assert (Hv : LoginVal.validate alice_login = []) by (vm_compute; reflexivity).
  split.
  - refine (f_equal fst
              (proj1 (auth_user_store_failure alice_login offline_world
                        MemStore.unreachable Hv) _)).
    vm_compute. reflexivity.
  - refine (f_equal fst
              (proj2 (auth_user_store_failure alice_login broken_email_world
                        ReadOnlyStore.query_failed Hv) _ _));
      vm_compute; reflexivity.
Defined.

Lemma is_user_exists_verdict_witness :
  exists free,
    RegisterVal.is_user_exists alice_reg empty_world
    = (Return free,
       MkWorld (db empty_world) (entropy empty_world)
               (calls empty_world ++ fetched (uniqueness_queries alice_reg)))
    /\ (free = true
        <-> truthy_doc None = false /\ truthy_doc None = false
            /\ truthy_doc None = false).
Proof.
  refine (is_user_exists_verdict alice_reg empty_world None None None _ _ _);
    vm_compute; reflexivity.
Defined.

Lemma uniqueness_query_failure_witness :
  fst (RegisterVal.save_user bob_reg offline_world) = Raise MemStore.unreachable
  /\ fst (RegisterVal.save_user bob_reg broken_email_world)
     = Raise ReadOnlyStore.query_failed.
Proof.
  split.
  - refine (f_equal fst
              (proj2 (proj2 (proj1 (uniqueness_query_failure bob_reg offline_world
                                      MemStore.unreachable) _)))).
    vm_compute. reflexivity.
  - refine (f_equal fst
              (proj2 (proj2 (proj2 (uniqueness_query_failure bob_reg
                                      broken_email_world
                                      ReadOnlyStore.query_failed) None _ _))));
      vm_compute; reflexivity.
Defined.

Lemma registration_accepts_iff_witness :
  fst (RegisterVal.validate alice_reg empty_world) = Return []
  /\ (8 <= length (RegisterVal.pass1 (RegisterVal.user alice_reg)) <= 16)%nat.
Proof.
  assert (H : fst (RegisterVal.validate alice_reg empty_world) = Return [])
    by (vm_compute; reflexivity).
  split; [exact H |].
  refine (proj1 (proj2 (proj2 (proj2 (proj2
            (proj1 (registration_accepts_iff alice_reg empty_world None None None
                      _ _ _) H)))))).
  all: vm_compute; reflexivity.
Defined.

Lemma registration_empty_fields_witness :
  (In (str "Email is required") blank_errors
   /\ In (str "Invalid Email") blank_errors)
  /\ (In (str "Password is required") blank_errors
      /\ In (str "Password must be 8-16 characters long") blank_errors)
  /\ (In (str "Confirm Password is required") carol_errors
      /\ In (str "Passwords do not match") carol_errors).
Proof.
  assert (Hb : RegisterVal.validate blank_reg empty_world
               = (Return blank_errors,
                  snd (RegisterVal.validate blank_reg empty_world)))
    by (vm_compute; reflexivity).
  assert (Hc : RegisterVal.validate carol_reg empty_world
               = (Return carol_errors,
                  snd (RegisterVal.validate carol_reg empty_world)))
    by (vm_compute; reflexivity).
  split; [| split].
  - exact (proj1 (registration_empty_fields blank_reg empty_world _ _ Hb) eq_refl).
  - exact (proj1 (proj2 (registration_empty_fields blank_reg empty_world _ _ Hb))
                 eq_refl).
  - refine (proj2 (proj2 (registration_empty_fields carol_reg empty_world _ _ Hc))
                  eq_refl _).
    intros E. vm_compute in E. discriminate.
Defined.

Lemma validate_messages_distinct_witness :
  NoDup bob_errors /\ (length bob_errors <= 10)%nat.
Proof.
  refine (validate_messages_distinct bob_reg empty_world bob_errors
            bob_validated _).
  vm_compute. reflexivity.
Defined.

Lemma save_user_succeeds_witness :
  RegisterVal.save_user alice_reg empty_world
  = (Return (StatusDict true (Some (MsgStr (str "User registered successfully")))),
     MkWorld (MemStore.Build true [alice_record]) [9%N]
             (calls empty_world ++ fetched (uniqueness_queries alice_reg)
                ++ [Ev (CallHash (RegisterVal.pass1 (RegisterVal.user alice_reg))) None;
                    Ev (CallAdd (persisted_record alice_reg alice_digest)) None])).
Proof.
  refine (save_user_succeeds alice_reg empty_world
            (snd (RegisterVal.validate alice_reg empty_world))
            alice_digest [9%N] (MemStore.Build true [alice_record]) _ _ _);
    vm_compute; reflexivity.
Defined.

Lemma save_user_late_failure_witness :
  (exists w',
      RegisterVal.save_user alice_reg drained_world
      = (Raise (Exception "no entropy"), w')
      /\ db w' = db drained_world /\ insertions w' = insertions drained_world)
  /\ (exists w',
         RegisterVal.save_user alice_reg readonly_world
         = (Raise ReadOnlyStore.not_writable, w')
         /\ db w' = db readonly_world
         /\ last (calls w')
            = Some (Ev (CallAdd (persisted_record alice_reg alice_digest))
                       (Some ReadOnlyStore.not_writable))).
Proof.
  split.
  - refine (proj1 (save_user_late_failure alice_reg drained_world
                     (snd (RegisterVal.validate alice_reg drained_world))
                     (Exception "no entropy") _) [] _);
      vm_compute; reflexivity.
  - refine (proj2 (save_user_late_failure alice_reg readonly_world
                     (snd (RegisterVal.validate alice_reg readonly_world))
                     ReadOnlyStore.not_writable _)
                  alice_digest [9%N] (db readonly_world) _ _);
      vm_compute; reflexivity.
Defined.

Lemma register_twice_witness :
  exists w3,
    RegisterVal.save_user alice_reg registered_world
    = (Return (StatusDict false (Some (MsgList [str "User already exists"]))), w3)
    /\ untouched registered_world w3.
Proof.
  refine (register_twice alice_reg empty_world
            (Some (MsgStr (str "User registered successfully")))
            alice_registered registered_world _ _);
    vm_compute; reflexivity.
Defined.

Lemma register_init_witness :
  RegisterVal.init alice empty_world
  = (Return (RegisterVal.Build alice (RegisterVal.uid alice)),
     MkWorld (db empty_world) (entropy empty_world)
             (calls empty_world ++ [Ev CallNew None]))
  /\ fst (RegisterVal.init alice offline_world) = Raise MemStore.unreachable
  /\ fst (LoginVal.auth_user alice_login offline_world)
     = Raise (AppException MemStore.unreachable).
Proof.
  split; [| split].
  - refine (proj1 (register_init alice empty_world) _).
    vm_compute. reflexivity.
  - refine (f_equal fst
              (proj1 (proj2 (register_init alice offline_world)
                            MemStore.unreachable _))).
    vm_compute. reflexivity.
  - refine (f_equal fst
              (proj2 (proj2 (register_init alice offline_world)
                            MemStore.unreachable _) alice_login _));
      vm_compute; reflexivity.
Defined.

Lemma save_user_success_sound_witness :
  fst (RegisterVal.validate alice_reg empty_world) = Return []
  /\ Some (MsgStr (str "User registered successfully"))
     = Some (MsgStr (str "User registered successfully"))
  /\ exists hashed,
      fst (hash (RegisterVal.pass1 (RegisterVal.user alice_reg)) (entropy empty_world))
      = Return hashed
      /\ add_user (persisted_record alice_reg hashed) (db empty_world)
         = (Return tt, db alice_registered)
      /\ insertions alice_registered
         = insertions empty_world
             ++ [Ev (CallAdd (persisted_record alice_reg hashed)) None].
Proof.
  refine (save_user_success_sound alice_reg empty_world
            (Some (MsgStr (str "User registered successfully")))
            alice_registered _).
  vm_compute. reflexivity.
Defined.

Lemma save_user_failure_sound_witness :
  exists errors,
    Some (MsgList bob_errors) = Some (MsgList errors)
    /\ errors <> []
    /\ fst (RegisterVal.validate bob_reg empty_world) = Return errors
    /\ untouched empty_world (snd (RegisterVal.save_user bob_reg empty_world)).
Proof.
  refine (save_user_failure_sound bob_reg empty_world (Some (MsgList bob_errors))
            (snd (RegisterVal.save_user bob_reg empty_world)) _).
  vm_compute. reflexivity.
Defined.
